(** * Kaia transaction layer: type tags, intrinsic gas, fee split, EIP-7702 guard

    A shallow embedding of [blockchain/types/tx_internal_data.go].

    - unsigned machine integers ([uint8], [uint16], [uint64]) are [Z] with
      the wrap-around of every arithmetic step written out;
    - [*big.Int] is [Z];
    - byte slices are [list byte];
    - the Go map [txTypeToGasMap] is a [gmap];
    - [(value, error)] results are the sum type [result];
    - the state database is threaded through a small state monad.

    Part I holds the definitions, Part II the lemmas and theorems. *)

From Stdlib Require Import ZArith List Lia Bool.
From Stdlib.Strings Require Import Byte.
From stdpp Require Import base gmap strings list.
Import ListNotations.
Open Scope Z_scope.

(** * Part I: the program *)

(** ** Machine integers *)

Module Uint.

Definition MaxUint64 : Z := 18446744073709551615.
Definition MaxInt : Z := 9223372036854775807.

(** Conversion to an unsigned type, which is also the result of an
    arithmetic operation at that type. *)
Definition u64 (x : Z) : Z := x mod 2 ^ 64.
Definition u16 (x : Z) : Z := x mod 2 ^ 16.
Definition u8 (x : Z) : Z := x mod 2 ^ 8.

Definition add64 (a b : Z) : Z := u64 (a + b).
Definition sub64 (a b : Z) : Z := u64 (a - b).
Definition mul64 (a b : Z) : Z := u64 (a * b).

Definition isU64 (x : Z) : Prop := 0 <= x <= MaxUint64.
Definition isU16 (x : Z) : Prop := 0 <= x < 65536.
Definition isU8 (x : Z) : Prop := 0 <= x < 256.

(** [len(s)] of a Go slice is an [int]: it never exceeds [MaxInt]. *)
Definition len {A} (s : list A) : Z := Z.of_nat (length s).
Definition GoSlice {A} (s : list A) : Prop := len s <= MaxInt.

End Uint.
Import Uint.

(** ** Results and errors *)

Inductive error : Type :=
| errUndefinedTxType
| ErrGasUintOverflow
| ErrToMustBeEOAWithoutCode
| ErrFromMustBeEOAWithoutCode
| ErrToMustBeEOAWithCodeOrSCA
| fmt_Errorf (msg : string).

Inductive result (A : Type) : Type :=
| Ok (a : A)
| Err (e : error).
Arguments Ok {A} a.
Arguments Err {A} e.

(** ** Protocol parameters

    The constants of package [params] read by the transaction layer.  Their
    declarations are not part of the excerpt, so every definition below takes
    the table as a parameter. *)

Record ProtocolParams : Type := {
  TxGas : Z;
  TxGasContractCreation : Z;
  TxDataGas : Z;
  TxDataZeroGas : Z;
  TxDataNonZeroGasFrontier : Z;
  TxDataNonZeroGasEIP2028 : Z;
  InitCodeWordGas : Z;
  TxAccessListAddressGas : Z;
  TxAccessListStorageKeyGas : Z;
  CallNewAccountGas : Z;
  TxGasValueTransfer : Z;
  TxGasAccountCreation : Z;
  TxGasAccountUpdate : Z;
  TxGasContractExecution : Z;
  TxGasCancel : Z;
  TxChainDataAnchoringGas : Z;
  TxGasFeeDelegated : Z;
  TxGasFeeDelegatedWithRatio : Z
}.

(** Every constant is a [uint64]; the constants used as divisors in the
    overflow guards are non-zero (a zero divisor would panic at run time). *)
Record ParamsOK (p : ProtocolParams) : Prop := {
  ok_TxGas : isU64 (TxGas p);
  ok_TxGasContractCreation : isU64 (TxGasContractCreation p);
  ok_TxDataGas : 0 < TxDataGas p <= MaxUint64;
  ok_TxDataZeroGas : 0 < TxDataZeroGas p <= MaxUint64;
  ok_TxDataNonZeroGasFrontier : 0 < TxDataNonZeroGasFrontier p <= MaxUint64;
  ok_TxDataNonZeroGasEIP2028 : 0 < TxDataNonZeroGasEIP2028 p <= MaxUint64;
  ok_InitCodeWordGas : 0 < InitCodeWordGas p <= MaxUint64;
  ok_TxAccessListAddressGas : isU64 (TxAccessListAddressGas p);
  ok_TxAccessListStorageKeyGas : isU64 (TxAccessListStorageKeyGas p);
  ok_CallNewAccountGas : isU64 (CallNewAccountGas p)
}.

(** The values the Kaia main line gives these constants
    ([params/protocol_params.go]); used for concrete evaluations only. *)
Definition kaiaParams : ProtocolParams := {|
  TxGas := 21000;
  TxGasContractCreation := 53000;
  TxDataGas := 100;
  TxDataZeroGas := 4;
  TxDataNonZeroGasFrontier := 68;
  TxDataNonZeroGasEIP2028 := 16;
  InitCodeWordGas := 2;
  TxAccessListAddressGas := 2400;
  TxAccessListStorageKeyGas := 1900;
  CallNewAccountGas := 25000;
  TxGasValueTransfer := 21000;
  TxGasAccountCreation := 21000;
  TxGasAccountUpdate := 21000;
  TxGasContractExecution := 21000;
  TxGasCancel := 21000;
  TxChainDataAnchoringGas := 21000;
  TxGasFeeDelegated := 10000;
  TxGasFeeDelegatedWithRatio := 15000
|}.

(** [params.Rules]: the fork gates consulted by the gas engine. *)
Record Rules : Type := {
  IsIstanbul : bool;
  IsShanghai : bool;
  IsPrague : bool
}.

(** ** Transaction type tags *)

(** [type TxType uint16] *)
Abbreviation TxType := Z (only parsing).

Definition SubTxTypeBits : Z := 3.

(** The [iota]-generated block: line [i] declares
    [i << SubTxTypeBits], [i << SubTxTypeBits + 1], [i << SubTxTypeBits + 2]. *)
Definition TxTypeLegacyTransaction : TxType := Z.shiftl 0 SubTxTypeBits.
Definition TxTypeValueTransfer : TxType := Z.shiftl 1 SubTxTypeBits.
Definition TxTypeFeeDelegatedValueTransfer : TxType := Z.shiftl 1 SubTxTypeBits + 1.
Definition TxTypeFeeDelegatedValueTransferWithRatio : TxType := Z.shiftl 1 SubTxTypeBits + 2.
Definition TxTypeValueTransferMemo : TxType := Z.shiftl 2 SubTxTypeBits.
Definition TxTypeFeeDelegatedValueTransferMemo : TxType := Z.shiftl 2 SubTxTypeBits + 1.
Definition TxTypeFeeDelegatedValueTransferMemoWithRatio : TxType := Z.shiftl 2 SubTxTypeBits + 2.
Definition TxTypeAccountCreation : TxType := Z.shiftl 3 SubTxTypeBits.
Definition TxTypeAccountUpdate : TxType := Z.shiftl 4 SubTxTypeBits.
Definition TxTypeFeeDelegatedAccountUpdate : TxType := Z.shiftl 4 SubTxTypeBits + 1.
Definition TxTypeFeeDelegatedAccountUpdateWithRatio : TxType := Z.shiftl 4 SubTxTypeBits + 2.
Definition TxTypeSmartContractDeploy : TxType := Z.shiftl 5 SubTxTypeBits.
Definition TxTypeFeeDelegatedSmartContractDeploy : TxType := Z.shiftl 5 SubTxTypeBits + 1.
Definition TxTypeFeeDelegatedSmartContractDeployWithRatio : TxType := Z.shiftl 5 SubTxTypeBits + 2.
Definition TxTypeSmartContractExecution : TxType := Z.shiftl 6 SubTxTypeBits.
Definition TxTypeFeeDelegatedSmartContractExecution : TxType := Z.shiftl 6 SubTxTypeBits + 1.
Definition TxTypeFeeDelegatedSmartContractExecutionWithRatio : TxType := Z.shiftl 6 SubTxTypeBits + 2.
Definition TxTypeCancel : TxType := Z.shiftl 7 SubTxTypeBits.
Definition TxTypeFeeDelegatedCancel : TxType := Z.shiftl 7 SubTxTypeBits + 1.
Definition TxTypeFeeDelegatedCancelWithRatio : TxType := Z.shiftl 7 SubTxTypeBits + 2.
Definition TxTypeBatch : TxType := Z.shiftl 8 SubTxTypeBits.
Definition TxTypeChainDataAnchoring : TxType := Z.shiftl 9 SubTxTypeBits.
Definition TxTypeFeeDelegatedChainDataAnchoring : TxType := Z.shiftl 9 SubTxTypeBits + 1.
Definition TxTypeFeeDelegatedChainDataAnchoringWithRatio : TxType := Z.shiftl 9 SubTxTypeBits + 2.
Definition TxTypeKaiaLast : TxType := Z.shiftl 10 SubTxTypeBits.
Definition TxTypeEthereumAccessList : TxType := 0x7801.
Definition TxTypeEthereumDynamicFee : TxType := 0x7802.
Definition TxTypeEthereumSetCode : TxType := 0x7804.
Definition TxTypeEthereumLast : TxType := 0x7805.

Definition EthereumTxTypeEnvelope : TxType := 0x78.

(** Every named constant of the [TxType] declaration block. *)
Definition declaredTxTypes : list TxType :=
  [ TxTypeLegacyTransaction;
    TxTypeValueTransfer;
    TxTypeFeeDelegatedValueTransfer;
    TxTypeFeeDelegatedValueTransferWithRatio;
    TxTypeValueTransferMemo;
    TxTypeFeeDelegatedValueTransferMemo;
    TxTypeFeeDelegatedValueTransferMemoWithRatio;
    TxTypeAccountCreation;
    TxTypeAccountUpdate;
    TxTypeFeeDelegatedAccountUpdate;
    TxTypeFeeDelegatedAccountUpdateWithRatio;
    TxTypeSmartContractDeploy;
    TxTypeFeeDelegatedSmartContractDeploy;
    TxTypeFeeDelegatedSmartContractDeployWithRatio;
    TxTypeSmartContractExecution;
    TxTypeFeeDelegatedSmartContractExecution;
    TxTypeFeeDelegatedSmartContractExecutionWithRatio;
    TxTypeCancel;
    TxTypeFeeDelegatedCancel;
    TxTypeFeeDelegatedCancelWithRatio;
    TxTypeBatch;
    TxTypeChainDataAnchoring;
    TxTypeFeeDelegatedChainDataAnchoring;
    TxTypeFeeDelegatedChainDataAnchoringWithRatio;
    TxTypeKaiaLast;
    TxTypeEthereumAccessList;
    TxTypeEthereumDynamicFee;
    TxTypeEthereumSetCode;
    TxTypeEthereumLast ].

(** [func (t TxType) String() string] *)
Definition TxType_String (t : TxType) : string :=
  if t =? TxTypeLegacyTransaction then "TxTypeLegacyTransaction" else
  if t =? TxTypeValueTransfer then "TxTypeValueTransfer" else
  if t =? TxTypeFeeDelegatedValueTransfer then "TxTypeFeeDelegatedValueTransfer" else
  if t =? TxTypeFeeDelegatedValueTransferWithRatio then "TxTypeFeeDelegatedValueTransferWithRatio" else
  if t =? TxTypeValueTransferMemo then "TxTypeValueTransferMemo" else
  if t =? TxTypeFeeDelegatedValueTransferMemo then "TxTypeFeeDelegatedValueTransferMemo" else
  if t =? TxTypeFeeDelegatedValueTransferMemoWithRatio then "TxTypeFeeDelegatedValueTransferMemoWithRatio" else
  if t =? TxTypeAccountCreation then "TxTypeAccountCreation" else
  if t =? TxTypeAccountUpdate then "TxTypeAccountUpdate" else
  if t =? TxTypeFeeDelegatedAccountUpdate then "TxTypeFeeDelegatedAccountUpdate" else
  if t =? TxTypeFeeDelegatedAccountUpdateWithRatio then "TxTypeFeeDelegatedAccountUpdateWithRatio" else
  if t =? TxTypeSmartContractDeploy then "TxTypeSmartContractDeploy" else
  if t =? TxTypeFeeDelegatedSmartContractDeploy then "TxTypeFeeDelegatedSmartContractDeploy" else
  if t =? TxTypeFeeDelegatedSmartContractDeployWithRatio then "TxTypeFeeDelegatedSmartContractDeployWithRatio" else
  if t =? TxTypeSmartContractExecution then "TxTypeSmartContractExecution" else
  if t =? TxTypeFeeDelegatedSmartContractExecution then "TxTypeFeeDelegatedSmartContractExecution" else
  if t =? TxTypeFeeDelegatedSmartContractExecutionWithRatio then "TxTypeFeeDelegatedSmartContractExecutionWithRatio" else
  if t =? TxTypeCancel then "TxTypeCancel" else
  if t =? TxTypeFeeDelegatedCancel then "TxTypeFeeDelegatedCancel" else
  if t =? TxTypeFeeDelegatedCancelWithRatio then "TxTypeFeeDelegatedCancelWithRatio" else
  if t =? TxTypeBatch then "TxTypeBatch" else
  if t =? TxTypeChainDataAnchoring then "TxTypeChainDataAnchoring" else
  if t =? TxTypeFeeDelegatedChainDataAnchoring then "TxTypeFeeDelegatedChainDataAnchoring" else
  if t =? TxTypeFeeDelegatedChainDataAnchoringWithRatio then "TxTypeFeeDelegatedChainDataAnchoringWithRatio" else
  if t =? TxTypeEthereumAccessList then "TxTypeEthereumAccessList" else
  if t =? TxTypeEthereumDynamicFee then "TxTypeEthereumDynamicFee" else
  if t =? TxTypeEthereumSetCode then "TxTypeEthereumSetCode" else
  "UndefinedTxType".

(** [type TxTypeMask uint8] and the two delegation bits. *)
Definition TxTypeMask (t : TxType) : Z := u8 t.
Definition TxFeeDelegationBitMask : Z := 1.
Definition TxFeeDelegationWithRatioBitMask : Z := 2.

(** ** Classification predicates *)

Definition IsAccountCreation (t : TxType) : bool := t =? TxTypeAccountCreation.

Definition IsAccountUpdate (t : TxType) : bool :=
  Z.ldiff t (Z.shiftl 1 SubTxTypeBits - 1) =? TxTypeAccountUpdate.

Definition IsContractDeploy (t : TxType) : bool :=
  Z.ldiff t (Z.shiftl 1 SubTxTypeBits - 1) =? TxTypeSmartContractDeploy.

Definition IsCancelTransaction (t : TxType) : bool :=
  Z.ldiff t (Z.shiftl 1 SubTxTypeBits - 1) =? TxTypeCancel.

Definition IsLegacyTransaction (t : TxType) : bool := t =? TxTypeLegacyTransaction.

Definition IsEthTypedTransaction (t : TxType) : bool :=
  Z.land t 0xff00 =? u16 (Z.shiftl EthereumTxTypeEnvelope 8).

Definition IsEthereumTransaction (t : TxType) : bool :=
  IsLegacyTransaction t || IsEthTypedTransaction t.

Definition IsFeeDelegatedTransaction (t : TxType) : bool :=
  negb (Z.land (TxTypeMask t)
          (Z.lor TxFeeDelegationBitMask TxFeeDelegationWithRatioBitMask) =? 0)
  && negb (IsEthereumTransaction t).

Definition IsFeeDelegatedWithRatioTransaction (t : TxType) : bool :=
  negb (Z.land (TxTypeMask t) TxFeeDelegationWithRatioBitMask =? 0)
  && negb (IsEthereumTransaction t).

Definition IsChainDataAnchoring (t : TxType) : bool :=
  Z.ldiff t (Z.shiftl 1 SubTxTypeBits - 1) =? TxTypeChainDataAnchoring.

(** ** Fee ratio *)

(** [type FeeRatio uint8] *)
Abbreviation FeeRatio := Z (only parsing).

Definition MaxFeeRatio : FeeRatio := 100.

(** FeeRatio is valid where it is [1,99]. *)
Definition FeeRatio_IsValid (f : FeeRatio) : bool := (1 <=? f) && (f <=? 99).

(** ** The variant registry *)

(** Modelled from the spec: the structs implementing [TxInternalData] are
    declared in per-variant files that the excerpt does not contain.  The
    spec has one concrete shape per transaction type, built zero-valued by
    its constructor; a variant is modelled by its shape, one constructor per
    struct. *)
Inductive TxInternalData : Type :=
| TxInternalDataLegacy
| TxInternalDataValueTransfer
| TxInternalDataFeeDelegatedValueTransfer
| TxInternalDataFeeDelegatedValueTransferWithRatio
| TxInternalDataValueTransferMemo
| TxInternalDataFeeDelegatedValueTransferMemo
| TxInternalDataFeeDelegatedValueTransferMemoWithRatio
| TxInternalDataAccountCreation
| TxInternalDataAccountUpdate
| TxInternalDataFeeDelegatedAccountUpdate
| TxInternalDataFeeDelegatedAccountUpdateWithRatio
| TxInternalDataSmartContractDeploy
| TxInternalDataFeeDelegatedSmartContractDeploy
| TxInternalDataFeeDelegatedSmartContractDeployWithRatio
| TxInternalDataSmartContractExecution
| TxInternalDataFeeDelegatedSmartContractExecution
| TxInternalDataFeeDelegatedSmartContractExecutionWithRatio
| TxInternalDataCancel
| TxInternalDataFeeDelegatedCancel
| TxInternalDataFeeDelegatedCancelWithRatio
| TxInternalDataChainDataAnchoring
| TxInternalDataFeeDelegatedChainDataAnchoring
| TxInternalDataFeeDelegatedChainDataAnchoringWithRatio
| TxInternalDataEthereumAccessList
| TxInternalDataEthereumDynamicFee
| TxInternalDataEthereumSetCode.

(** Modelled from the spec: the [Type()] method of each variant struct is
    not in the excerpt; the spec's type introspection returns the tag of the
    variant's own transaction type. *)
Definition TxInternalData_Type (d : TxInternalData) : TxType :=
  match d with
  | TxInternalDataLegacy => TxTypeLegacyTransaction
  | TxInternalDataValueTransfer => TxTypeValueTransfer
  | TxInternalDataFeeDelegatedValueTransfer => TxTypeFeeDelegatedValueTransfer
  | TxInternalDataFeeDelegatedValueTransferWithRatio => TxTypeFeeDelegatedValueTransferWithRatio
  | TxInternalDataValueTransferMemo => TxTypeValueTransferMemo
  | TxInternalDataFeeDelegatedValueTransferMemo => TxTypeFeeDelegatedValueTransferMemo
  | TxInternalDataFeeDelegatedValueTransferMemoWithRatio => TxTypeFeeDelegatedValueTransferMemoWithRatio
  | TxInternalDataAccountCreation => TxTypeAccountCreation
  | TxInternalDataAccountUpdate => TxTypeAccountUpdate
  | TxInternalDataFeeDelegatedAccountUpdate => TxTypeFeeDelegatedAccountUpdate
  | TxInternalDataFeeDelegatedAccountUpdateWithRatio => TxTypeFeeDelegatedAccountUpdateWithRatio
  | TxInternalDataSmartContractDeploy => TxTypeSmartContractDeploy
  | TxInternalDataFeeDelegatedSmartContractDeploy => TxTypeFeeDelegatedSmartContractDeploy
  | TxInternalDataFeeDelegatedSmartContractDeployWithRatio => TxTypeFeeDelegatedSmartContractDeployWithRatio
  | TxInternalDataSmartContractExecution => TxTypeSmartContractExecution
  | TxInternalDataFeeDelegatedSmartContractExecution => TxTypeFeeDelegatedSmartContractExecution
  | TxInternalDataFeeDelegatedSmartContractExecutionWithRatio => TxTypeFeeDelegatedSmartContractExecutionWithRatio
  | TxInternalDataCancel => TxTypeCancel
  | TxInternalDataFeeDelegatedCancel => TxTypeFeeDelegatedCancel
  | TxInternalDataFeeDelegatedCancelWithRatio => TxTypeFeeDelegatedCancelWithRatio
  | TxInternalDataChainDataAnchoring => TxTypeChainDataAnchoring
  | TxInternalDataFeeDelegatedChainDataAnchoring => TxTypeFeeDelegatedChainDataAnchoring
  | TxInternalDataFeeDelegatedChainDataAnchoringWithRatio => TxTypeFeeDelegatedChainDataAnchoringWithRatio
  | TxInternalDataEthereumAccessList => TxTypeEthereumAccessList
  | TxInternalDataEthereumDynamicFee => TxTypeEthereumDynamicFee
  | TxInternalDataEthereumSetCode => TxTypeEthereumSetCode
  end.

(** [func NewTxInternalData(t TxType) (TxInternalData, error)]; the case of
    [TxTypeAccountCreation] is commented out in the source. *)
Definition NewTxInternalData (t : TxType) : result TxInternalData :=
  if t =? TxTypeLegacyTransaction then Ok TxInternalDataLegacy else
  if t =? TxTypeValueTransfer then Ok TxInternalDataValueTransfer else
  if t =? TxTypeFeeDelegatedValueTransfer then Ok TxInternalDataFeeDelegatedValueTransfer else
  if t =? TxTypeFeeDelegatedValueTransferWithRatio then Ok TxInternalDataFeeDelegatedValueTransferWithRatio else
  if t =? TxTypeValueTransferMemo then Ok TxInternalDataValueTransferMemo else
  if t =? TxTypeFeeDelegatedValueTransferMemo then Ok TxInternalDataFeeDelegatedValueTransferMemo else
  if t =? TxTypeFeeDelegatedValueTransferMemoWithRatio then Ok TxInternalDataFeeDelegatedValueTransferMemoWithRatio else
  if t =? TxTypeAccountUpdate then Ok TxInternalDataAccountUpdate else
  if t =? TxTypeFeeDelegatedAccountUpdate then Ok TxInternalDataFeeDelegatedAccountUpdate else
  if t =? TxTypeFeeDelegatedAccountUpdateWithRatio then Ok TxInternalDataFeeDelegatedAccountUpdateWithRatio else
  if t =? TxTypeSmartContractDeploy then Ok TxInternalDataSmartContractDeploy else
  if t =? TxTypeFeeDelegatedSmartContractDeploy then Ok TxInternalDataFeeDelegatedSmartContractDeploy else
  if t =? TxTypeFeeDelegatedSmartContractDeployWithRatio then Ok TxInternalDataFeeDelegatedSmartContractDeployWithRatio else
  if t =? TxTypeSmartContractExecution then Ok TxInternalDataSmartContractExecution else
  if t =? TxTypeFeeDelegatedSmartContractExecution then Ok TxInternalDataFeeDelegatedSmartContractExecution else
  if t =? TxTypeFeeDelegatedSmartContractExecutionWithRatio then Ok TxInternalDataFeeDelegatedSmartContractExecutionWithRatio else
  if t =? TxTypeCancel then Ok TxInternalDataCancel else
  if t =? TxTypeFeeDelegatedCancel then Ok TxInternalDataFeeDelegatedCancel else
  if t =? TxTypeFeeDelegatedCancelWithRatio then Ok TxInternalDataFeeDelegatedCancelWithRatio else
  if t =? TxTypeChainDataAnchoring then Ok TxInternalDataChainDataAnchoring else
  if t =? TxTypeFeeDelegatedChainDataAnchoring then Ok TxInternalDataFeeDelegatedChainDataAnchoring else
  if t =? TxTypeFeeDelegatedChainDataAnchoringWithRatio then Ok TxInternalDataFeeDelegatedChainDataAnchoringWithRatio else
  if t =? TxTypeEthereumAccessList then Ok TxInternalDataEthereumAccessList else
  if t =? TxTypeEthereumDynamicFee then Ok TxInternalDataEthereumDynamicFee else
  if t =? TxTypeEthereumSetCode then Ok TxInternalDataEthereumSetCode else
  Err errUndefinedTxType.

(** ** Intrinsic gas *)

(** [func toWordSize(size uint64) uint64] *)
Definition toWordSize (size : Z) : Z :=
  if size >? MaxUint64 - 31 then MaxUint64 / 32 + 1
  else u64 (size + 31) / 32.

(** [bytes.Count(data, []byte{0})]: the number of zero bytes of [data]. *)
Fixpoint bytes_Count0 (data : list byte) : nat :=
  match data with
  | [] => O
  | b :: rest => if Byte.eqb b x00 then S (bytes_Count0 rest) else bytes_Count0 rest
  end.

(** [type AccessTuple struct { Address; StorageKeys }]; an address is the
    20-byte value read big-endian, a storage key a 32-byte hash. *)
Abbreviation Address := Z (only parsing).
Abbreviation Hash := Z (only parsing).

Record AccessTuple : Type := {
  at_Address : Address;
  at_StorageKeys : list Hash
}.

Abbreviation AccessList := (list AccessTuple) (only parsing).

(** Modelled from the spec: [AccessList.StorageKeys()] is declared outside
    the excerpt; the spec charges per storage key counted over the whole
    list, duplicates included. *)
Definition AccessList_StorageKeys (al : AccessList) : Z :=
  fold_right (fun tuple sum => len (at_StorageKeys tuple) + sum) 0 al.

(** Modelled from the spec: the [SetCodeAuthorization] struct is declared
    outside the excerpt; an authorization entry carries at least the
    address delegated to.  Only the number of entries is charged. *)
Record SetCodeAuthorization : Type := {
  auth_Address : Address
}.

Section IntrinsicGas.

Variable params : ProtocolParams.

(** [func IntrinsicGasPayload(gas uint64, data []byte, isContractCreation bool,
    rules params.Rules) (uint64, error)] *)
Definition IntrinsicGasPayload (gas : Z) (data : list byte)
    (isContractCreation : bool) (rules : Rules) : result Z :=
  let length := u64 (len data) in
  let afterData :=
    if length >? 0 then
      let z := u64 (Z.of_nat (bytes_Count0 data)) in
      let nz := sub64 length z in
      let nonZeroGas :=
        if IsPrague rules then TxDataNonZeroGasEIP2028 params else TxDataGas params in
      let zeroGas :=
        if IsPrague rules then TxDataZeroGas params else TxDataGas params in
      if (MaxUint64 - gas) / nonZeroGas <? nz then Err ErrGasUintOverflow
      else
        let gas := add64 gas (mul64 nz nonZeroGas) in
        if (MaxUint64 - gas) / zeroGas <? z then Err ErrGasUintOverflow
        else Ok (add64 gas (mul64 z zeroGas))
    else Ok gas in
  match afterData with
  | Err e => Err e
  | Ok gas =>
      if isContractCreation && IsShanghai rules then
        let lenWords := toWordSize length in
        if (MaxUint64 - gas) / InitCodeWordGas params <? lenWords
        then Err ErrGasUintOverflow
        else Ok (add64 gas (mul64 lenWords (InitCodeWordGas params)))
      else Ok gas
  end.

(** [func IntrinsicGasPayloadLegacy(gas uint64, data []byte) (uint64, error)] *)
Definition IntrinsicGasPayloadLegacy (gas : Z) (data : list byte) : result Z :=
  let length := u64 (len data) in
  if length >? 0 then
    let z := u64 (Z.of_nat (bytes_Count0 data)) in
    let nz := sub64 length z in
    if (MaxUint64 - gas) / TxDataNonZeroGasFrontier params <? nz
    then Err ErrGasUintOverflow
    else
      let gas := add64 gas (mul64 nz (TxDataNonZeroGasFrontier params)) in
      if (MaxUint64 - gas) / TxDataZeroGas params <? z then Err ErrGasUintOverflow
      else Ok (add64 gas (mul64 z (TxDataZeroGas params)))
  else Ok gas.

(** [func IntrinsicGas(data []byte, accessList AccessList,
    authorizationList []SetCodeAuthorization, contractCreation bool,
    r params.Rules) (uint64, error)]; a nil slice is [None]. *)
Definition IntrinsicGas (data : list byte) (accessList : option AccessList)
    (authorizationList : option (list SetCodeAuthorization))
    (contractCreation : bool) (r : Rules) : result Z :=
  let gas := if contractCreation then TxGasContractCreation params else TxGas params in
  let payload :=
    if IsIstanbul r then IntrinsicGasPayload gas data contractCreation r
    else IntrinsicGasPayloadLegacy gas data in
  match payload with
  | Err e => Err e
  | Ok gasPayloadWithGas =>
      let gasPayloadWithGas :=
        match accessList with
        | Some al =>
            let g := add64 gasPayloadWithGas
                       (mul64 (u64 (len al)) (TxAccessListAddressGas params)) in
            add64 g (mul64 (u64 (AccessList_StorageKeys al))
                       (TxAccessListStorageKeyGas params))
        | None => gasPayloadWithGas
        end in
      let gasPayloadWithGas :=
        match authorizationList with
        | Some auths =>
            add64 gasPayloadWithGas
              (mul64 (u64 (len auths)) (CallNewAccountGas params))
        | None => gasPayloadWithGas
        end in
      Ok gasPayloadWithGas
  end.

(** [var txTypeToGasMap = map[TxType]uint64{...}].  The sums are Go constant
    expressions, evaluated exactly at compile time. *)
Definition txTypeToGasMap : gmap Z Z :=
  list_to_map
    [ (TxTypeLegacyTransaction, TxGas params);
      (TxTypeValueTransfer, TxGasValueTransfer params);
      (TxTypeFeeDelegatedValueTransfer,
        TxGasValueTransfer params + TxGasFeeDelegated params);
      (TxTypeFeeDelegatedValueTransferWithRatio,
        TxGasValueTransfer params + TxGasFeeDelegatedWithRatio params);
      (TxTypeValueTransferMemo, TxGasValueTransfer params);
      (TxTypeFeeDelegatedValueTransferMemo,
        TxGasValueTransfer params + TxGasFeeDelegated params);
      (TxTypeFeeDelegatedValueTransferMemoWithRatio,
        TxGasValueTransfer params + TxGasFeeDelegatedWithRatio params);
      (TxTypeAccountCreation, TxGasAccountCreation params);
      (TxTypeAccountUpdate, TxGasAccountUpdate params);
      (TxTypeFeeDelegatedAccountUpdate,
        TxGasAccountUpdate params + TxGasFeeDelegated params);
      (TxTypeFeeDelegatedAccountUpdateWithRatio,
        TxGasAccountUpdate params + TxGasFeeDelegatedWithRatio params);
      (TxTypeSmartContractDeploy, TxGasContractCreation params);
      (TxTypeFeeDelegatedSmartContractDeploy,
        TxGasContractCreation params + TxGasFeeDelegated params);
      (TxTypeFeeDelegatedSmartContractDeployWithRatio,
        TxGasContractCreation params + TxGasFeeDelegatedWithRatio params);
      (TxTypeSmartContractExecution, TxGasContractExecution params);
      (TxTypeFeeDelegatedSmartContractExecution,
        TxGasContractExecution params + TxGasFeeDelegated params);
      (TxTypeFeeDelegatedSmartContractExecutionWithRatio,
        TxGasContractExecution params + TxGasFeeDelegatedWithRatio params);
      (TxTypeCancel, TxGasCancel params);
      (TxTypeFeeDelegatedCancel, TxGasCancel params + TxGasFeeDelegated params);
      (TxTypeFeeDelegatedCancelWithRatio,
        TxGasCancel params + TxGasFeeDelegatedWithRatio params);
      (TxTypeChainDataAnchoring, TxChainDataAnchoringGas params);
      (TxTypeFeeDelegatedChainDataAnchoring,
        TxChainDataAnchoringGas params + TxGasFeeDelegated params);
      (TxTypeFeeDelegatedChainDataAnchoringWithRatio,
        TxChainDataAnchoringGas params + TxGasFeeDelegatedWithRatio params);
      (TxTypeEthereumAccessList, TxGas params);
      (TxTypeEthereumDynamicFee, TxGas params);
      (TxTypeEthereumSetCode, TxGas params) ].

(** [func GetTxGasForTxType(txType TxType) (uint64, error)] *)
Definition GetTxGasForTxType (txType : TxType) : result Z :=
  match txTypeToGasMap !! txType with
  | Some gas => Ok gas
  | None =>
      Err (fmt_Errorf ("cannot find txGas for txType " +:+ TxType_String txType))
  end.

End IntrinsicGas.

(** ** Fee split *)

(** [big.Int.Div]: Euclidean division, the remainder is never negative;
    a zero divisor panics and is not modelled ([common.Big100] is 100). *)
Definition big_Div (x y : Z) : Z := Z.sgn y * (x / Z.abs y).

Definition Big100 : Z := 100.

(** [func CalcFeeWithRatio(feeRatio FeeRatio, fee big.Int)], returning the
    pair of the fee payer's and the sender's share. *)
Definition CalcFeeWithRatio (feeRatio : FeeRatio) (fee : Z) : Z * Z :=
  let feePayer := big_Div (fee * u64 feeRatio) Big100 in
  let feeSender := fee - feePayer in
  (feePayer, feeSender).

(** ** Delegation validator *)

(** Modelled from the spec: package [account] is not part of the excerpt.
    The spec's account-state reader tells plain accounts from contract
    accounts and returns the code hash.  An [account.Account] interface value
    is modelled by what [validate7702] observes of it: the result of
    [Type()], and the outcome of the type assertion to
    [*account.ExternallyOwnedAccount] with the code hash it then reads.
    Besides the two kinds of the spec, [AccountType] has the legacy kind of
    the account package. *)
Inductive AccountType : Type :=
| LegacyAccountType
| ExternallyOwnedAccountType
| SmartContractAccountType.

Record ExternallyOwnedAccount : Type := {
  GetCodeHash : list byte
}.

Record Account : Type := {
  acc_Type : AccountType;
  acc_EOA : option ExternallyOwnedAccount
}.

Definition AccountType_eqb (a b : AccountType) : bool :=
  match a, b with
  | LegacyAccountType, LegacyAccountType
  | ExternallyOwnedAccountType, ExternallyOwnedAccountType
  | SmartContractAccountType, SmartContractAccountType => true
  | _, _ => false
  end.

(** [bytes.Equal] *)
Fixpoint bytes_Equal (a b : list byte) : bool :=
  match a, b with
  | [], [] => true
  | x :: a', y :: b' => Byte.eqb x y && bytes_Equal a' b'
  | _, _ => false
  end.

(** The state database: the accounts by address.  Code that receives a
    [StateDB] runs in the state monad over it. *)
Definition StateM (A : Type) : Type := gmap Z Account -> A * gmap Z Account.

#[global] Instance StateM_ret : MRet StateM := fun A a s => (a, s).
#[global] Instance StateM_bind : MBind StateM :=
  fun A B k m s => let (a, s') := m s in k a s'.

(** [stateDB.GetAccount(addr)]: a query; [None] is the nil account. *)
Definition GetAccount (addr : Address) : StateM (option Account) :=
  fun s => (s !! addr, s).

Section Validate7702.

(** [var emptyCodeHash = crypto.Keccak256(nil)]; package [crypto] is not part
    of the excerpt. *)
Variable emptyCodeHash : list byte.

(** [func validate7702(stateDB StateDB, txType TxType, from, to common.Address) error];
    the result [None] is the nil error. *)
Definition validate7702 (txType : TxType) (from to : Address) : StateM (option error) :=
  if (txType =? TxTypeValueTransfer)
     || (txType =? TxTypeFeeDelegatedValueTransfer)
     || (txType =? TxTypeFeeDelegatedValueTransferWithRatio)
     || (txType =? TxTypeValueTransferMemo)
     || (txType =? TxTypeFeeDelegatedValueTransferMemo)
     || (txType =? TxTypeFeeDelegatedValueTransferMemoWithRatio)
  then
    acc ← GetAccount to;
    match acc with
    | None => mret None
    | Some acc =>
        if AccountType_eqb (acc_Type acc) SmartContractAccountType
        then mret (Some ErrToMustBeEOAWithoutCode)
        else
          match acc_EOA acc with
          | None => mret (Some ErrToMustBeEOAWithoutCode)
          | Some eoa =>
              if negb (bytes_Equal (GetCodeHash eoa) emptyCodeHash)
              then mret (Some ErrToMustBeEOAWithoutCode)
              else mret None
          end
    end
  else if (txType =? TxTypeAccountUpdate)
     || (txType =? TxTypeFeeDelegatedAccountUpdate)
     || (txType =? TxTypeFeeDelegatedAccountUpdateWithRatio)
  then
    acc ← GetAccount from;
    match acc with
    | None => mret None
    | Some acc =>
        if AccountType_eqb (acc_Type acc) SmartContractAccountType
        then mret (Some ErrFromMustBeEOAWithoutCode)
        else
          match acc_EOA acc with
          | None => mret (Some ErrFromMustBeEOAWithoutCode)
          | Some eoa =>
              if negb (bytes_Equal (GetCodeHash eoa) emptyCodeHash)
              then mret (Some ErrFromMustBeEOAWithoutCode)
              else mret None
          end
    end
  else if (txType =? TxTypeSmartContractExecution)
     || (txType =? TxTypeFeeDelegatedSmartContractExecution)
     || (txType =? TxTypeFeeDelegatedSmartContractExecutionWithRatio)
  then
    acc ← GetAccount to;
    match acc with
    | None => mret (Some ErrToMustBeEOAWithCodeOrSCA)
    | Some acc =>
        if AccountType_eqb (acc_Type acc) SmartContractAccountType then mret None
        else
          match acc_EOA acc with
          | None => mret None
          | Some eoa =>
              if negb (bytes_Equal (GetCodeHash eoa) emptyCodeHash) then mret None
              else mret (Some ErrToMustBeEOAWithCodeOrSCA)
          end
    end
  else mret None.

End Validate7702.

(** ** Vocabulary of the specification *)

(** The two delegation bits of a tag, read through [TxTypeMask]. *)
Definition hasFeeDelegationBit (t : TxType) : bool :=
  negb (Z.land (TxTypeMask t) TxFeeDelegationBitMask =? 0).

Definition hasFeeDelegationWithRatioBit (t : TxType) : bool :=
  negb (Z.land (TxTypeMask t) TxFeeDelegationWithRatioBitMask =? 0).

(** [k] is the ceiling of [n / d]: the least number of [d]-sized words that
    hold [n] bytes. *)
Definition isCeilDiv (n d k : Z) : Prop := d * (k - 1) < n <= d * k.

(** Membership in a list of tags, as a test. *)
Definition tagIn (t : TxType) (l : list TxType) : bool := existsb (Z.eqb t) l.

(** The declared tags that have no variant of their own: the disabled
    account-creation type, the batch type and the two end markers. *)
Definition tagsWithoutVariant : list TxType :=
  [ TxTypeAccountCreation; TxTypeBatch; TxTypeKaiaLast; TxTypeEthereumLast ].

(** The declared tags that have no entry in the gas table. *)
Definition tagsWithoutGas : list TxType :=
  [ TxTypeBatch; TxTypeKaiaLast; TxTypeEthereumLast ].

Definition constructibleTxTypes : list TxType :=
  List.filter (fun t => negb (tagIn t tagsWithoutVariant)) declaredTxTypes.

Definition pricedTxTypes : list TxType :=
  List.filter (fun t => negb (tagIn t tagsWithoutGas)) declaredTxTypes.

(** The base tags of the families that have fee-delegated variants. *)
Definition delegableFamilies : list TxType :=
  [ TxTypeValueTransfer; TxTypeValueTransferMemo; TxTypeAccountUpdate;
    TxTypeSmartContractDeploy; TxTypeSmartContractExecution; TxTypeCancel;
    TxTypeChainDataAnchoring ].

(** The exact (unbounded) cost figures of the gas engine. *)
Definition zeroBytes (data : list byte) : Z := Z.of_nat (bytes_Count0 data).

Definition nonZeroBytes (data : list byte) : Z := len data - zeroBytes data.

(** The result of a checked computation whose exact value is [x]. *)
Definition checked (x : Z) : result Z :=
  if x <=? MaxUint64 then Ok x else Err ErrGasUintOverflow.

Definition payloadCost (p : ProtocolParams) (rules : Rules) (data : list byte) : Z :=
  if IsPrague rules
  then nonZeroBytes data * TxDataNonZeroGasEIP2028 p + zeroBytes data * TxDataZeroGas p
  else nonZeroBytes data * TxDataGas p + zeroBytes data * TxDataGas p.

Definition payloadCostLegacy (p : ProtocolParams) (data : list byte) : Z :=
  nonZeroBytes data * TxDataNonZeroGasFrontier p + zeroBytes data * TxDataZeroGas p.

Definition initCodeCost (p : ProtocolParams) (rules : Rules)
    (isContractCreation : bool) (data : list byte) : Z :=
  if isContractCreation && IsShanghai rules
  then toWordSize (len data) * InitCodeWordGas p
  else 0.

Definition baseCost (p : ProtocolParams) (contractCreation : bool) : Z :=
  if contractCreation then TxGasContractCreation p else TxGas p.

(** Base cost plus payload cost plus contract-creation word cost. *)
Definition payloadTotal (p : ProtocolParams) (data : list byte)
    (contractCreation : bool) (r : Rules) : Z :=
  if IsIstanbul r
  then baseCost p contractCreation + payloadCost p r data
       + initCodeCost p r contractCreation data
  else baseCost p contractCreation + payloadCostLegacy p data.

(** Access-list plus authorization-list surcharge. *)
Definition listSurcharge (p : ProtocolParams) (accessList : option AccessList)
    (authorizationList : option (list SetCodeAuthorization)) : Z :=
  match accessList with
  | Some al =>
      len al * TxAccessListAddressGas p
      + AccessList_StorageKeys al * TxAccessListStorageKeyGas p
  | None => 0
  end
  + match authorizationList with
    | Some auths => len auths * CallNewAccountGas p
    | None => 0
    end.

(** Sample inputs. *)

(** A rule set with only the Istanbul gate active. *)
Definition istanbulRules : Rules :=
  {| IsIstanbul := true; IsShanghai := false; IsPrague := false |}.

(** A 64-byte payload: 32 zero bytes followed by 32 non-zero bytes. *)
Definition payload64 : list byte := repeat x00 32 ++ repeat x01 32.

(** An access list of [tuples] entries, each carrying [keys] storage keys.
    In Go the entries may share one backing array of keys, so such a list
    takes memory proportional to [tuples + keys], not to their product. *)
Definition wideAccessList (tuples keys : N) : AccessList :=
  repeat {| at_Address := 0; at_StorageKeys := repeat 0 (N.to_nat keys) |}
         (N.to_nat tuples).

(** The Keccak-256 hash of the empty byte string, the value of
    [emptyCodeHash] at run time; used for concrete evaluations only. *)
Definition keccak256Empty : list byte :=
  [ xc5; xd2; x46; x01; x86; xf7; x23; x3c; x92; x7e; x7d; xb2; xdc; xc7; x03; xc0;
    xe5; x00; xb6; x53; xca; x82; x27; x3b; x7b; xfa; xd8; x04; x5d; x85; xa4; x70 ].

(** The contract-execution family. *)
Definition contractExecutionTypes : list TxType :=
  [ TxTypeSmartContractExecution; TxTypeFeeDelegatedSmartContractExecution;
    TxTypeFeeDelegatedSmartContractExecutionWithRatio ].




Definition isCodelessEOA (h : list byte) (acc : Account) : Prop :=
  acc_Type acc <> SmartContractAccountType /\
  exists eoa, acc_EOA acc = Some eoa /\ GetCodeHash eoa = h.

(** An account of the legacy kind: neither a contract account nor an
    externally-owned account. *)
Definition legacyAccount : Account :=
  {| acc_Type := LegacyAccountType; acc_EOA := None |}.

(** A codeless externally-owned account. *)
Definition plainEOA : Account :=
  {| acc_Type := ExternallyOwnedAccountType;
     acc_EOA := Some {| GetCodeHash := keccak256Empty |} |}.

(** A rule set with every gate of the gas engine active. *)
Definition pragueRules : Rules :=
  {| IsIstanbul := true; IsShanghai := true; IsPrague := true |}.


(** ** Further functions of the transaction layer *)

(** [type TxValueKeyType uint] and its [iota] block. *)
Abbreviation TxValueKeyType := Z (only parsing).

Definition TxValueKeyNonce : TxValueKeyType := 0.
Definition TxValueKeyTo : TxValueKeyType := 1.
Definition TxValueKeyAmount : TxValueKeyType := 2.
Definition TxValueKeyGasLimit : TxValueKeyType := 3.
Definition TxValueKeyGasPrice : TxValueKeyType := 4.
Definition TxValueKeyData : TxValueKeyType := 5.
Definition TxValueKeyFrom : TxValueKeyType := 6.
Definition TxValueKeyAnchoredData : TxValueKeyType := 7.
Definition TxValueKeyHumanReadable : TxValueKeyType := 8.
Definition TxValueKeyAccountKey : TxValueKeyType := 9.
Definition TxValueKeyFeePayer : TxValueKeyType := 10.
Definition TxValueKeyFeeRatioOfFeePayer : TxValueKeyType := 11.
Definition TxValueKeyCodeFormat : TxValueKeyType := 12.
Definition TxValueKeyAccessList : TxValueKeyType := 13.
Definition TxValueKeyChainID : TxValueKeyType := 14.
Definition TxValueKeyGasTipCap : TxValueKeyType := 15.
Definition TxValueKeyGasFeeCap : TxValueKeyType := 16.
Definition TxValueKeyAuthorizationList : TxValueKeyType := 17.

Definition declaredTxValueKeys : list TxValueKeyType :=
  [ TxValueKeyNonce;
    TxValueKeyTo;
    TxValueKeyAmount;
    TxValueKeyGasLimit;
    TxValueKeyGasPrice;
    TxValueKeyData;
    TxValueKeyFrom;
    TxValueKeyAnchoredData;
    TxValueKeyHumanReadable;
    TxValueKeyAccountKey;
    TxValueKeyFeePayer;
    TxValueKeyFeeRatioOfFeePayer;
    TxValueKeyCodeFormat;
    TxValueKeyAccessList;
    TxValueKeyChainID;
    TxValueKeyGasTipCap;
    TxValueKeyGasFeeCap;
    TxValueKeyAuthorizationList ].

(** [func (t TxValueKeyType) String() string] *)
Definition TxValueKeyType_String (t : TxValueKeyType) : string :=
  if t =? TxValueKeyNonce then "TxValueKeyNonce" else
  if t =? TxValueKeyTo then "TxValueKeyTo" else
  if t =? TxValueKeyAmount then "TxValueKeyAmount" else
  if t =? TxValueKeyGasLimit then "TxValueKeyGasLimit" else
  if t =? TxValueKeyGasPrice then "TxValueKeyGasPrice" else
  if t =? TxValueKeyData then "TxValueKeyData" else
  if t =? TxValueKeyFrom then "TxValueKeyFrom" else
  if t =? TxValueKeyAnchoredData then "TxValueKeyAnchoredData" else
  if t =? TxValueKeyHumanReadable then "TxValueKeyHumanReadable" else
  if t =? TxValueKeyAccountKey then "TxValueKeyAccountKey" else
  if t =? TxValueKeyFeePayer then "TxValueKeyFeePayer" else
  if t =? TxValueKeyFeeRatioOfFeePayer then "TxValueKeyFeeRatioOfFeePayer" else
  if t =? TxValueKeyCodeFormat then "TxValueKeyCodeFormat" else
  if t =? TxValueKeyChainID then "TxValueKeyChainID" else
  if t =? TxValueKeyAccessList then "TxValueKeyAccessList" else
  if t =? TxValueKeyGasTipCap then "TxValueKeyGasTipCap" else
  if t =? TxValueKeyGasFeeCap then "TxValueKeyGasFeeCap" else
  if t =? TxValueKeyAuthorizationList then "TxValueKeyAuthorizationList" else
  "UndefinedTxValueKeyType".

Section WithMap.

(** The values held by a [map[TxValueKeyType]interface{}]. *)
Variable Value : Type.

(** The per-variant map constructors ([newTxInternalDataLegacyWithMap] and
    the like) are declared outside the excerpt; [newWithMap d] stands for
    the constructor of the struct of shape [d]. *)
Variable newWithMap : TxInternalData -> gmap Z Value -> result TxInternalData.

(** [func NewTxInternalDataWithMap(t TxType, values map[TxValueKeyType]interface{})
    (TxInternalData, error)]; the case of [TxTypeAccountCreation] is
    commented out in the source. *)
Definition NewTxInternalDataWithMap (t : TxType) (values : gmap Z Value)
    : result TxInternalData :=
  if t =? TxTypeLegacyTransaction then newWithMap TxInternalDataLegacy values else
  if t =? TxTypeValueTransfer then newWithMap TxInternalDataValueTransfer values else
  if t =? TxTypeFeeDelegatedValueTransfer then newWithMap TxInternalDataFeeDelegatedValueTransfer values else
  if t =? TxTypeFeeDelegatedValueTransferWithRatio then newWithMap TxInternalDataFeeDelegatedValueTransferWithRatio values else
  if t =? TxTypeValueTransferMemo then newWithMap TxInternalDataValueTransferMemo values else
  if t =? TxTypeFeeDelegatedValueTransferMemo then newWithMap TxInternalDataFeeDelegatedValueTransferMemo values else
  if t =? TxTypeFeeDelegatedValueTransferMemoWithRatio then newWithMap TxInternalDataFeeDelegatedValueTransferMemoWithRatio values else
  if t =? TxTypeAccountUpdate then newWithMap TxInternalDataAccountUpdate values else
  if t =? TxTypeFeeDelegatedAccountUpdate then newWithMap TxInternalDataFeeDelegatedAccountUpdate values else
  if t =? TxTypeFeeDelegatedAccountUpdateWithRatio then newWithMap TxInternalDataFeeDelegatedAccountUpdateWithRatio values else
  if t =? TxTypeSmartContractDeploy then newWithMap TxInternalDataSmartContractDeploy values else
  if t =? TxTypeFeeDelegatedSmartContractDeploy then newWithMap TxInternalDataFeeDelegatedSmartContractDeploy values else
  if t =? TxTypeFeeDelegatedSmartContractDeployWithRatio then newWithMap TxInternalDataFeeDelegatedSmartContractDeployWithRatio values else
  if t =? TxTypeSmartContractExecution then newWithMap TxInternalDataSmartContractExecution values else
  if t =? TxTypeFeeDelegatedSmartContractExecution then newWithMap TxInternalDataFeeDelegatedSmartContractExecution values else
  if t =? TxTypeFeeDelegatedSmartContractExecutionWithRatio then newWithMap TxInternalDataFeeDelegatedSmartContractExecutionWithRatio values else
  if t =? TxTypeCancel then newWithMap TxInternalDataCancel values else
  if t =? TxTypeFeeDelegatedCancel then newWithMap TxInternalDataFeeDelegatedCancel values else
  if t =? TxTypeFeeDelegatedCancelWithRatio then newWithMap TxInternalDataFeeDelegatedCancelWithRatio values else
  if t =? TxTypeChainDataAnchoring then newWithMap TxInternalDataChainDataAnchoring values else
  if t =? TxTypeFeeDelegatedChainDataAnchoring then newWithMap TxInternalDataFeeDelegatedChainDataAnchoring values else
  if t =? TxTypeFeeDelegatedChainDataAnchoringWithRatio then newWithMap TxInternalDataFeeDelegatedChainDataAnchoringWithRatio values else
  if t =? TxTypeEthereumAccessList then newWithMap TxInternalDataEthereumAccessList values else
  if t =? TxTypeEthereumDynamicFee then newWithMap TxInternalDataEthereumDynamicFee values else
  if t =? TxTypeEthereumSetCode then newWithMap TxInternalDataEthereumSetCode values else
  Err errUndefinedTxType.

End WithMap.

(** The [accountkey.AccountKey] interface is declared outside the excerpt;
    a key is modelled by the one method the gas lookup calls,
    [AccountCreationGas(currentBlockNumber) (uint64, error)]. *)
Record AccountKey : Type := {
  AccountCreationGas : Z -> result Z
}.

Section GasWithAccountKey.

Variable params : ProtocolParams.

(** [params.TxGasHumanReadable], declared outside the excerpt. *)
Variable TxGasHumanReadable : Z.

(** [func GetTxGasForTxTypeWithAccountKey(txType TxType,
    accountKey accountkey.AccountKey, currentBlockNumber uint64,
    humanReadable bool) (uint64, error)]; a nil key is [None]. *)
Definition GetTxGasForTxTypeWithAccountKey (txType : TxType)
    (accountKey : option AccountKey) (currentBlockNumber : Z)
    (humanReadable : bool) : result Z :=
  match GetTxGasForTxType params txType with
  | Err err => Err err
  | Ok gas =>
      let keyGas :=
        match accountKey with
        | Some key => AccountCreationGas key currentBlockNumber
        | None => Ok 0
        end in
      match keyGas with
      | Err err => Err err
      | Ok gasKey =>
          let gas := add64 gas gasKey in
          let gas := if humanReadable then add64 gas TxGasHumanReadable else gas in
          Ok gas
      end
  end.

End GasWithAccountKey.

(** [func equalRecipient(a, b *common.Address) bool]; a pointer is an
    option, and an address is given by the bytes that [Bytes()] returns. *)
Definition equalRecipient (a b : option (list byte)) : bool :=
  match a, b with
  | None, None => true
  | Some a', Some b' => bytes_Equal a' b'
  | _, _ => false
  end.

(** ** More vocabulary *)

(** The tags whose name has [FeeDelegated], and those with [WithRatio]. *)
Definition withRatioTxTypes : list TxType :=
  map (fun base => base + 2) delegableFamilies.

Definition feeDelegatedTxTypes : list TxType :=
  map (fun base => base + 1) delegableFamilies ++ withRatioTxTypes.

(** The three tags of a family with delegated variants. *)
Definition familyOf (base : TxType) : list TxType := [ base; base + 1; base + 2 ].

(** The groups of [validate7702]. *)
Definition valueTransferTypes : list TxType :=
  [ TxTypeValueTransfer; TxTypeFeeDelegatedValueTransfer;
    TxTypeFeeDelegatedValueTransferWithRatio; TxTypeValueTransferMemo;
    TxTypeFeeDelegatedValueTransferMemo;
    TxTypeFeeDelegatedValueTransferMemoWithRatio ].

Definition accountUpdateTypes : list TxType :=
  [ TxTypeAccountUpdate; TxTypeFeeDelegatedAccountUpdate;
    TxTypeFeeDelegatedAccountUpdateWithRatio ].

Definition guardedTxTypes : list TxType :=
  valueTransferTypes ++ accountUpdateTypes ++ contractExecutionTypes.

(** The tags that [TxType.String] names. *)
Definition namedTxTypes : list TxType :=
  List.filter (fun t => negb (tagIn t [TxTypeKaiaLast; TxTypeEthereumLast]))
    declaredTxTypes.

(** The exact total of the gas engine: payload part plus list surcharges. *)
Definition exactIntrinsicGas (p : ProtocolParams) (data : list byte)
    (al : option AccessList) (auths : option (list SetCodeAuthorization))
    (cc : bool) (r : Rules) : Z :=
  payloadTotal p data cc r + listSurcharge p al auths.

(** The test [f] holds on the [n] numbers from [from] upwards. *)
Fixpoint allFrom (n : nat) (f : Z -> bool) (from : Z) : bool :=
  match n with
  | O => true
  | S k => f from && allFrom k f (from + 1)
  end.

(** * Part II: properties *)

(** ** Machine integers *)

Lemma u64_id x : isU64 x -> u64 x = x.
Proof. unfold isU64, u64, MaxUint64. intros H. apply Z.mod_small. lia. Qed.

Lemma u64_range x : isU64 (u64 x).
Proof.
  unfold isU64, u64, MaxUint64.
  pose proof (Z.mod_pos_bound x (2 ^ 64) ltac:(lia)). lia.
Qed.

Lemma len_nonneg {A} (s : list A) : 0 <= len s.
Proof. unfold len. lia. Qed.

Lemma len_app {A} (s t : list A) : len (s ++ t) = len s + len t.
Proof. unfold len. rewrite length_app. lia. Qed.

Lemma len_repeat {A} (x : A) (n : N) : len (repeat x (N.to_nat n)) = Z.of_N n.
Proof. unfold len. rewrite repeat_length. lia. Qed.

(** The guard [(MaxUint64 - gas) / c < n] placed before [gas += n * c]
    fires exactly when the sum leaves the [uint64] range. *)
Lemma guard_iff gas c n :
  0 < c -> ((MaxUint64 - gas) / c <? n) = negb (gas + n * c <=? MaxUint64).
Proof.
  intros Hc.
  destruct (Z.ltb_spec ((MaxUint64 - gas) / c) n) as [H | H];
    destruct (Z.leb_spec (gas + n * c) MaxUint64) as [H' | H'];
    try reflexivity; exfalso.
  - assert (n <= (MaxUint64 - gas) / c) by (apply Z.div_le_lower_bound; lia). lia.
  - assert ((MaxUint64 - gas) / c < n) by (apply Z.div_lt_upper_bound; lia). lia.
Qed.

(** Checking a decidable property on every number below [n]. *)
Lemma forallb_below (n : nat) (f : Z -> bool) :
  forallb f (map Z.of_nat (seq 0 n)) = true ->
  forall x, 0 <= x < Z.of_nat n -> f x = true.
Proof.
  intros H x Hx. rewrite forallb_forall in H. apply H.
  apply in_map_iff. exists (Z.to_nat x). split; [lia | apply in_seq; lia].
Qed.

(** ** Fee split *)

Lemma big_Div_100 x : big_Div x Big100 = x / 100.
Proof.
  unfold big_Div, Big100.
  change (Z.sgn 100) with 1. change (Z.abs 100) with 100. apply Z.mul_1_l.
Qed.

Lemma CalcFeeWithRatio_eq (r fee : Z) :
  isU8 r -> CalcFeeWithRatio r fee = (fee * r / 100, fee - fee * r / 100).
Proof.
  intros Hr. unfold CalcFeeWithRatio. rewrite big_Div_100.
  rewrite u64_id by (unfold isU8, isU64, MaxUint64 in *; lia). reflexivity.
Qed.

(** C1: for a ratio in [1,99] and a non-negative fee, the payer's share is
    [floor(fee * ratio / 100)], which is also the quotient truncated toward
    zero, the sender's share is the rest, and the two shares add up to the
    fee. *)
Theorem CalcFeeWithRatio_valid_ratio (r fee : Z) :
  FeeRatio_IsValid r = true -> 0 <= fee ->
  let '(payerShare, senderShare) := CalcFeeWithRatio r fee in
  payerShare = fee * r / 100 /\
  payerShare = fee * r ÷ 100 /\
  100 * payerShare <= fee * r < 100 * (payerShare + 1) /\
  senderShare = fee - payerShare /\
  payerShare + senderShare = fee.
Proof.
  intros Hr Hfee. unfold FeeRatio_IsValid in Hr.
  apply andb_true_iff in Hr as [H1 H99].
  apply Z.leb_le in H1, H99.
  rewrite CalcFeeWithRatio_eq by (unfold isU8; lia).
  pose proof (Z.mul_div_le (fee * r) 100 ltac:(lia)).
  pose proof (Z.mul_succ_div_gt (fee * r) 100 ltac:(lia)).
  repeat split; try lia.
  symmetry. apply Z.quot_div_nonneg; nia.
Qed.

Lemma CalcFeeWithRatio_valid_ratio_witness :
  FeeRatio_IsValid 30 = true /\ 0 <= 100 /\
  let '(payerShare, senderShare) := CalcFeeWithRatio 30 100 in
  payerShare = 100 * 30 / 100 /\
  payerShare = 100 * 30 ÷ 100 /\
  100 * payerShare <= 100 * 30 < 100 * (payerShare + 1) /\
  senderShare = 100 - payerShare /\
  payerShare + senderShare = 100.
Proof.
  split; [reflexivity | split; [lia |]].
  apply (CalcFeeWithRatio_valid_ratio 30 100); [reflexivity | lia].
Defined.




(** ** Word count *)

Lemma toWordSize_low (n : Z) :
  0 <= n <= MaxUint64 - 31 -> toWordSize n = (n + 31) / 32.
Proof.
  intros Hn. unfold toWordSize.
  destruct (Z.gtb_spec n (MaxUint64 - 31)) as [H | _]; [lia |].
  rewrite u64_id by (unfold isU64, MaxUint64 in *; lia). reflexivity.
Qed.

Lemma toWordSize_high (n : Z) :
  MaxUint64 - 31 < n -> toWordSize n = MaxUint64 / 32 + 1.
Proof.
  intros Hn. unfold toWordSize.
  destruct (Z.gtb_spec n (MaxUint64 - 31)) as [_ | H]; [reflexivity | lia].
Qed.

Lemma ceil32 (n : Z) : isCeilDiv n 32 ((n + 31) / 32).
Proof.
  unfold isCeilDiv.
  pose proof (Z.mul_div_le (n + 31) 32 ltac:(lia)).
  pose proof (Z.mul_succ_div_gt (n + 31) 32 ltac:(lia)).
  lia.
Qed.

(** The word count is the exact ceiling on the whole [uint64] range, and it
    is monotone. *)
Lemma toWordSize_ceil (n : Z) : isU64 n -> isCeilDiv n 32 (toWordSize n).
Proof.
  unfold isU64. intros Hn.
  destruct (Z_le_gt_dec n (MaxUint64 - 31)) as [Hle | Hgt].
  - rewrite toWordSize_low by lia. apply ceil32.
  - rewrite toWordSize_high by lia. unfold isCeilDiv, MaxUint64 in *.
    change (18446744073709551615 / 32 + 1) with 576460752303423488. lia.
Qed.

Lemma toWordSize_mono (n m : Z) :
  isU64 n -> isU64 m -> n <= m -> toWordSize n <= toWordSize m.
Proof.
  intros Hn Hm Hle.
  pose proof (toWordSize_ceil n Hn). pose proof (toWordSize_ceil m Hm).
  unfold isCeilDiv in *. lia.
Qed.

Lemma toWordSize_range (n : Z) : isU64 n -> 0 <= toWordSize n <= MaxUint64 / 32 + 1.
Proof.
  intros Hn. pose proof (toWordSize_ceil n Hn) as H.
  unfold isCeilDiv, isU64, MaxUint64 in *.
  change (18446744073709551615 / 32 + 1) with 576460752303423488. lia.
Qed.

(** C6, as stated, fails: [MaxUint64 - 31] lies within 31 of the maximum,
    yet its word count is the plain ceiling [2^59 - 1], one less than the
    saturated maximum [MaxUint64 / 32 + 1]. *)
Lemma toWordSize_at_distance_31 :
  MaxUint64 - (MaxUint64 - 31) <= 31 /\
  toWordSize (MaxUint64 - 31) = 2 ^ 59 - 1 /\
  MaxUint64 / 32 + 1 = 2 ^ 59 /\
  toWordSize (MaxUint64 - 31) <> MaxUint64 / 32 + 1.
Proof.
  assert (E : toWordSize (MaxUint64 - 31) = 2 ^ 59 - 1) by reflexivity.
  rewrite E. unfold MaxUint64. repeat split; try reflexivity; try lia.
  discriminate.
Qed.

(** C6, amended: [toWordSize 0 = 0], [toWordSize 32 = 1], [toWordSize 33 = 2];
    for every [n <= MaxUint64 - 31] the sum [n + 31] does not wrap and the
    result is the ceiling of [n / 32]; for every [n > MaxUint64 - 31], that
    is within 30 of the maximum, the result is the saturated maximum
    [MaxUint64 / 32 + 1 = 2^59], which fits a [uint64]. *)
Theorem toWordSize_spec :
  toWordSize 0 = 0 /\ toWordSize 32 = 1 /\ toWordSize 33 = 2 /\
  (forall n, 0 <= n <= MaxUint64 - 31 ->
     u64 (n + 31) = n + 31 /\ toWordSize n = (n + 31) / 32 /\
     isCeilDiv n 32 (toWordSize n)) /\
  (forall n, MaxUint64 - 31 < n <= MaxUint64 ->
     toWordSize n = MaxUint64 / 32 + 1 /\ MaxUint64 / 32 + 1 = 2 ^ 59 /\
     isU64 (toWordSize n)) /\
  toWordSize MaxUint64 = 2 ^ 59.
Proof.
  split; [reflexivity |]. split; [reflexivity |]. split; [reflexivity |].
  split; [| split; [| reflexivity]].
  - intros n Hn. split; [| split].
    + apply u64_id. unfold isU64, MaxUint64 in *. lia.
    + apply toWordSize_low. assumption.
    + rewrite toWordSize_low by assumption. apply ceil32.
  - intros n Hn. rewrite toWordSize_high by lia.
    split; [reflexivity |]. split; [reflexivity |].
    unfold isU64, MaxUint64.
    change (18446744073709551615 / 32 + 1) with 576460752303423488. lia.
Qed.

Lemma toWordSize_spec_witness :
  0 <= 100 <= MaxUint64 - 31 /\
  u64 (100 + 31) = 100 + 31 /\ toWordSize 100 = (100 + 31) / 32 /\
  isCeilDiv 100 32 (toWordSize 100).
Proof.
  assert (H : 0 <= 100 <= MaxUint64 - 31) by (unfold MaxUint64; lia).
  split; [exact H |].
  destruct toWordSize_spec as (_ & _ & _ & Hlow & _). exact (Hlow 100 H).
Defined.

(** ** Classification by bit mask *)

Lemma delegation_mask_bits (x : Z) :
  0 <= x < 256 ->
  negb (Z.land x (Z.lor TxFeeDelegationBitMask TxFeeDelegationWithRatioBitMask) =? 0)
  = negb (Z.land x TxFeeDelegationBitMask =? 0)
    || negb (Z.land x TxFeeDelegationWithRatioBitMask =? 0).
Proof.
  intros Hx.
  apply (forallb_below 256
    (fun x => Bool.eqb
       (negb (Z.land x (Z.lor TxFeeDelegationBitMask
                          TxFeeDelegationWithRatioBitMask) =? 0))
       (negb (Z.land x TxFeeDelegationBitMask =? 0)
        || negb (Z.land x TxFeeDelegationWithRatioBitMask =? 0))))
    in Hx; [apply Bool.eqb_prop; exact Hx | vm_compute; reflexivity].
Qed.

(** C5, as stated, fails: tag [0x0B] (the value-transfer family with both
    delegation bits set) is outside the Ethereum-typed space and is
    classified as fee-delegated, although not exactly one bit is set. *)
Lemma IsFeeDelegatedTransaction_both_bits :
  isU16 11 /\
  hasFeeDelegationBit 11 = true /\ hasFeeDelegationWithRatioBit 11 = true /\
  IsEthTypedTransaction 11 = false /\
  IsFeeDelegatedTransaction 11 = true /\
  IsFeeDelegatedTransaction 11
    <> xorb (hasFeeDelegationBit 11) (hasFeeDelegationWithRatioBit 11)
       && negb (IsEthTypedTransaction 11).
Proof.
  unfold isU16. repeat split; try reflexivity; try lia.
  vm_compute. discriminate.
Qed.

(** C5, amended: a tag is fee-delegated if and only if at least one of the
    two delegation bits is set and the tag is not in the Ethereum-typed
    numeric space; every Ethereum-typed tag is not fee-delegated, whatever
    its low bits. *)
Theorem IsFeeDelegatedTransaction_spec (t : Z) :
  IsFeeDelegatedTransaction t
    = (hasFeeDelegationBit t || hasFeeDelegationWithRatioBit t)
      && negb (IsEthTypedTransaction t)
  /\ (IsEthTypedTransaction t = true -> IsFeeDelegatedTransaction t = false).
Proof.
  assert (Hm : 0 <= TxTypeMask t < 256)
    by (unfold TxTypeMask, u8; apply Z.mod_pos_bound; lia).
  unfold IsFeeDelegatedTransaction, hasFeeDelegationBit,
    hasFeeDelegationWithRatioBit, IsEthereumTransaction.
  rewrite (delegation_mask_bits _ Hm).
  split.
  - unfold IsLegacyTransaction.
    destruct (Z.eqb_spec t TxTypeLegacyTransaction) as [-> | _];
      [reflexivity |].
    reflexivity.
  - intros ->. rewrite orb_true_r. apply andb_false_r.
Qed.

Lemma IsFeeDelegatedTransaction_spec_witness :
  IsEthTypedTransaction 0x7801 = true /\
  hasFeeDelegationBit 0x7801 = true /\
  IsFeeDelegatedTransaction 0x7801 = false.
Proof.
  split; [reflexivity | split; [reflexivity |]].
  apply (proj2 (IsFeeDelegatedTransaction_spec 0x7801)). reflexivity.
Defined.

(** ** The variant registry *)

Lemma tagIn_In (t : Z) (l : list Z) : tagIn t l = true <-> In t l.
Proof.
  unfold tagIn. rewrite existsb_exists. split.
  - intros (c & Hc & E). apply Z.eqb_eq in E. subst c. exact Hc.
  - intros H. exists t. split; [exact H | apply Z.eqb_refl].
Qed.

(** Splits on whether [t] is the tag [c] and rewrites the test. *)
Ltac case_tag t c :=
  let E := fresh "E" in
  destruct (Z.eqb_spec t c) as [E | E];
  [ subst t | ].

(** C4, as stated, fails: [TxTypeAccountCreation] is a declared tag, and the
    constructor has no case for it. *)
Lemma NewTxInternalData_AccountCreation :
  In TxTypeAccountCreation declaredTxTypes /\
  NewTxInternalData TxTypeAccountCreation = Err errUndefinedTxType.
Proof.
  split; [| reflexivity].
  apply tagIn_In. reflexivity.
Qed.

(** C4, amended: for every declared tag other than [TxTypeAccountCreation],
    [TxTypeBatch], [TxTypeKaiaLast] and [TxTypeEthereumLast] the constructor
    succeeds with a variant whose [Type()] is the tag; for every other tag,
    those four included, it fails with the undefined-type error. *)
Theorem NewTxInternalData_spec :
  (forall t,
     match NewTxInternalData t with
     | Ok d => tagIn t constructibleTxTypes = true /\ TxInternalData_Type d = t
     | Err e => tagIn t constructibleTxTypes = false /\ e = errUndefinedTxType
     end) /\
  Forall (fun t => In t declaredTxTypes /\
                   NewTxInternalData t = Err errUndefinedTxType)
         tagsWithoutVariant.
Proof.
  split.
  2:{ unfold tagsWithoutVariant.
      repeat (apply List.Forall_cons;
              [ split; [apply tagIn_In |]; reflexivity |]).
      apply List.Forall_nil. }
  intros t. unfold NewTxInternalData.
  repeat match goal with
  | |- context [ t =? ?c ] => case_tag t c; [ split; reflexivity | ]
  end.
  split; [| reflexivity].
  apply not_true_is_false. intros H.
  apply tagIn_In in H as Hin. vm_compute in Hin.
  repeat (destruct Hin as [Hin | Hin]; [ subst t; contradiction |]).
  exact Hin.
Qed.

(** ** The static gas table *)

Section GasTable.

Variable p : ProtocolParams.

Lemma txTypeToGasMap_absent (t : Z) :
  tagIn t pricedTxTypes = false -> txTypeToGasMap p !! t = None.
Proof.
  intros H. unfold txTypeToGasMap.
  apply not_elem_of_list_to_map_1. intros Hin.
  apply not_true_iff_false in H. apply H. apply tagIn_In.
  simpl in Hin.
  repeat (apply elem_of_cons in Hin as [Hin | Hin];
          [ subst t; vm_compute; repeat (first [ left; reflexivity | right ]) |]).
  apply elem_of_nil in Hin. contradiction.
Qed.


End GasTable.


(** ** The gas engine *)

Lemma kaiaParams_ok : ParamsOK kaiaParams.
Proof. split; unfold isU64, MaxUint64; simpl; lia. Qed.

Lemma add64_u64_r (a b : Z) : add64 a (u64 b) = u64 (a + b).
Proof. unfold add64, u64. apply Z.add_mod_idemp_r. lia. Qed.

Lemma add64_u64_l (a b : Z) : add64 (u64 a) b = u64 (a + b).
Proof. unfold add64, u64. apply Z.add_mod_idemp_l. lia. Qed.

Lemma mul64_u64_l (a b : Z) : mul64 (u64 a) b = u64 (a * b).
Proof. unfold mul64, u64. apply Z.mul_mod_idemp_l. lia. Qed.

Lemma add64_mul64 (g n c : Z) : add64 g (mul64 (u64 n) c) = u64 (g + n * c).
Proof. rewrite mul64_u64_l. apply add64_u64_r. Qed.

Lemma add64_mul64_u64 (g n c : Z) : add64 (u64 g) (mul64 (u64 n) c) = u64 (g + n * c).
Proof. rewrite mul64_u64_l, add64_u64_r. unfold u64. apply Z.add_mod_idemp_l. lia. Qed.

Lemma u64_add2 (g a b : Z) : u64 (u64 (g + a) + b) = u64 (g + (a + b)).
Proof. unfold u64. rewrite Z.add_mod_idemp_l by lia. f_equal. lia. Qed.

Lemma u64_add3 (g a b c : Z) :
  u64 (u64 (u64 (g + a) + b) + c) = u64 (g + (a + b + c)).
Proof. rewrite u64_add2. unfold u64. rewrite Z.add_mod_idemp_l by lia. f_equal. lia. Qed.

Lemma bytes_Count0_le (data : list byte) : (bytes_Count0 data <= length data)%nat.
Proof.
  induction data as [| b rest IH]; simpl; [lia |].
  destruct (Byte.eqb b x00); lia.
Qed.

Lemma zeroBytes_range (data : list byte) : 0 <= zeroBytes data <= len data.
Proof. unfold zeroBytes, len. pose proof (bytes_Count0_le data). lia. Qed.

Lemma zeroBytes_app (d e : list byte) : zeroBytes (d ++ e) = zeroBytes d + zeroBytes e.
Proof.
  unfold zeroBytes. induction d as [| b rest IH]; simpl; [lia |].
  destruct (Byte.eqb b x00); lia.
Qed.

Lemma nonZeroBytes_app (d e : list byte) :
  nonZeroBytes (d ++ e) = nonZeroBytes d + nonZeroBytes e.
Proof. unfold nonZeroBytes. rewrite len_app, zeroBytes_app. lia. Qed.

Lemma nonZeroBytes_range (data : list byte) : 0 <= nonZeroBytes data <= len data.
Proof. unfold nonZeroBytes. pose proof (zeroBytes_range data). lia. Qed.

Lemma GoSlice_u64 {A} (s : list A) : GoSlice s -> u64 (len s) = len s.
Proof.
  unfold GoSlice, MaxInt. intros H. apply u64_id.
  pose proof (len_nonneg s). unfold isU64, MaxUint64. lia.
Qed.

(** The value of [gas += n * c] once the guard has passed. *)
Lemma step_value (gas n c : Z) :
  isU64 gas -> 0 <= n -> 0 <= c -> gas + n * c <= MaxUint64 ->
  add64 gas (mul64 n c) = gas + n * c.
Proof.
  intros Hg Hn Hc H. unfold mul64. rewrite add64_u64_r.
  apply u64_id. unfold isU64 in *. nia.
Qed.

Section GasEngine.

Variable p : ProtocolParams.
Hypothesis p_ok : ParamsOK p.

(** The two data steps shared by both payload policies. *)
Lemma data_steps (gas nzGas zGas : Z) (data : list byte) :
  isU64 gas -> GoSlice data -> 0 < nzGas -> 0 < zGas ->
  (let length := u64 (len data) in
   if length >? 0 then
     let z := u64 (Z.of_nat (bytes_Count0 data)) in
     let nz := sub64 length z in
     if (MaxUint64 - gas) / nzGas <? nz then Err ErrGasUintOverflow
     else
       let gas := add64 gas (mul64 nz nzGas) in
       if (MaxUint64 - gas) / zGas <? z then Err ErrGasUintOverflow
       else Ok (add64 gas (mul64 z zGas))
   else Ok gas)
  = checked (gas + nonZeroBytes data * nzGas + zeroBytes data * zGas).
Proof.
  intros Hg Hs Hnz Hz. cbv zeta.
  pose proof (zeroBytes_range data) as Hzr.
  pose proof (nonZeroBytes_range data) as Hnr.
  assert (Hmax : len data <= MaxUint64) by (unfold GoSlice, MaxInt, MaxUint64 in *; lia).
  rewrite (GoSlice_u64 data Hs).
  fold (zeroBytes data).
  rewrite (u64_id (zeroBytes data)) by (unfold isU64; lia).
  unfold sub64. fold (nonZeroBytes data).
  rewrite (u64_id (nonZeroBytes data)) by (unfold isU64; lia).
  unfold checked.
  destruct (Z.gtb_spec (len data) 0) as [Hpos | Hzero].
  - rewrite (guard_iff gas nzGas) by assumption.
    destruct (Z.leb_spec (gas + nonZeroBytes data * nzGas) MaxUint64) as [H1 | H1];
      simpl.
    + rewrite (step_value gas) by (first [assumption | lia]).
      rewrite guard_iff by assumption.
      destruct (Z.leb_spec (gas + nonZeroBytes data * nzGas + zeroBytes data * zGas)
                  MaxUint64) as [H2 | H2]; simpl; [| reflexivity].
      rewrite step_value by (unfold isU64 in *; first [lia | nia]). reflexivity.
    + destruct (Z.leb_spec (gas + nonZeroBytes data * nzGas + zeroBytes data * zGas)
                  MaxUint64) as [H2 | H2]; [nia | reflexivity].
  - assert (len data = 0) by (pose proof (len_nonneg data); lia).
    assert (zeroBytes data = 0) by lia. assert (nonZeroBytes data = 0) by lia.
    replace (gas + nonZeroBytes data * nzGas + zeroBytes data * zGas) with gas by nia.
    destruct (Z.leb_spec gas MaxUint64) as [_ | H']; [reflexivity |].
    unfold isU64 in Hg. lia.
Qed.

(** The payload engine never wraps: it returns the exact total when that
    fits a [uint64], and the overflow error otherwise. *)
Lemma IntrinsicGasPayload_exact (gas : Z) (data : list byte) (cc : bool) (rules : Rules) :
  isU64 gas -> GoSlice data ->
  IntrinsicGasPayload p gas data cc rules
  = checked (gas + payloadCost p rules data + initCodeCost p rules cc data).
Proof.
  intros Hg Hs. unfold IntrinsicGasPayload.
  destruct p_ok.
  assert (Hprices :
    0 < (if IsPrague rules then TxDataNonZeroGasEIP2028 p else TxDataGas p) /\
    0 < (if IsPrague rules then TxDataZeroGas p else TxDataGas p))
    by (destruct (IsPrague rules); lia).
  destruct Hprices as [Hnz Hz].
  pose proof (data_steps gas _ _ data Hg Hs Hnz Hz) as Hd.
  cbv zeta in Hd. cbv zeta. rewrite Hd. clear Hd.
  replace (gas + nonZeroBytes data *
             (if IsPrague rules then TxDataNonZeroGasEIP2028 p else TxDataGas p)
           + zeroBytes data * (if IsPrague rules then TxDataZeroGas p else TxDataGas p))
    with (gas + payloadCost p rules data)
    by (unfold payloadCost; destruct (IsPrague rules); lia).
  assert (Hcost : 0 <= payloadCost p rules data).
  { pose proof (zeroBytes_range data). pose proof (nonZeroBytes_range data).
    unfold payloadCost. destruct (IsPrague rules); nia. }
  rewrite (GoSlice_u64 data Hs).
  assert (Hlen : isU64 (len data)).
  { pose proof (len_nonneg data).
    unfold isU64, GoSlice, MaxInt, MaxUint64 in *. lia. }
  pose proof (toWordSize_range (len data) Hlen) as Hw.
  set (g1 := gas + payloadCost p rules data) in *.
  set (w := toWordSize (len data)) in *.
  unfold initCodeCost. fold w. unfold checked.
  destruct (cc && IsShanghai rules);
    destruct (Z.leb_spec g1 MaxUint64) as [H1 | H1].
  - rewrite guard_iff by lia.
    destruct (Z.leb_spec (g1 + w * InitCodeWordGas p) MaxUint64) as [H2 | H2];
      simpl; [| reflexivity].
    rewrite step_value by (unfold isU64 in *; lia). reflexivity.
  - destruct (Z.leb_spec (g1 + w * InitCodeWordGas p) MaxUint64) as [H2 | H2];
      [nia | reflexivity].
  - rewrite Z.add_0_r.
    destruct (Z.leb_spec g1 MaxUint64); [reflexivity | lia].
  - rewrite Z.add_0_r.
    destruct (Z.leb_spec g1 MaxUint64); [lia | reflexivity].
Qed.

Lemma IntrinsicGasPayloadLegacy_exact (gas : Z) (data : list byte) :
  isU64 gas -> GoSlice data ->
  IntrinsicGasPayloadLegacy p gas data = checked (gas + payloadCostLegacy p data).
Proof.
  intros Hg Hs. unfold IntrinsicGasPayloadLegacy. destruct p_ok.
  pose proof (data_steps gas (TxDataNonZeroGasFrontier p) (TxDataZeroGas p) data
                Hg Hs ltac:(lia) ltac:(lia)) as H.
  cbv zeta in H. cbv zeta. rewrite H.
  unfold payloadCostLegacy. f_equal. lia.
Qed.

Lemma baseCost_range (cc : bool) : isU64 (baseCost p cc).
Proof. destruct p_ok. unfold baseCost. destruct cc; assumption. Qed.

(** The whole engine: the payload part is checked, the list surcharges are
    added modulo [2^64]. *)
Lemma IntrinsicGas_exact (data : list byte) (al : option AccessList)
    (auths : option (list SetCodeAuthorization)) (cc : bool) (r : Rules) :
  GoSlice data ->
  IntrinsicGas p data al auths cc r
  = match checked (payloadTotal p data cc r) with
    | Ok g => Ok (u64 (g + listSurcharge p al auths))
    | Err e => Err e
    end.
Proof.
  intros Hs. unfold IntrinsicGas. fold (baseCost p cc).
  pose proof (baseCost_range cc) as Hb.
  assert (Hpay :
    (if IsIstanbul r then IntrinsicGasPayload p (baseCost p cc) data cc r
     else IntrinsicGasPayloadLegacy p (baseCost p cc) data)
    = checked (payloadTotal p data cc r)).
  { unfold payloadTotal. destruct (IsIstanbul r).
    - apply IntrinsicGasPayload_exact; assumption.
    - apply IntrinsicGasPayloadLegacy_exact; assumption. }
  rewrite Hpay. unfold checked.
  destruct (Z.leb_spec (payloadTotal p data cc r) MaxUint64) as [H | H]; [| reflexivity].
  f_equal. unfold listSurcharge.
  assert (Hg : 0 <= payloadTotal p data cc r).
  { pose proof (zeroBytes_range data). pose proof (nonZeroBytes_range data).
    pose proof (len_nonneg data).
    assert (isU64 (len data)) as Hlen
      by (unfold isU64, GoSlice, MaxInt, MaxUint64 in *; lia).
    pose proof (toWordSize_range (len data) Hlen).
    destruct p_ok. unfold isU64 in Hb.
    unfold payloadTotal, payloadCost, payloadCostLegacy, initCodeCost.
    destruct (IsIstanbul r), (IsPrague r), (cc && IsShanghai r); nia. }
  destruct al as [l |], auths as [a |].
  - rewrite !add64_mul64. rewrite u64_add3. reflexivity.
  - rewrite !add64_mul64. rewrite u64_add2. f_equal. lia.
  - rewrite add64_mul64. reflexivity.
  - rewrite Z.add_0_r. symmetry. apply u64_id. unfold isU64. lia.
Qed.

(** The engine reports an overflow exactly when the payload part overflows:
    the list surcharges never produce the error. *)
Lemma IntrinsicGas_error_iff (data : list byte) (al : option AccessList)
    (auths : option (list SetCodeAuthorization)) (cc : bool) (r : Rules) (e : error) :
  GoSlice data ->
  IntrinsicGas p data al auths cc r = Err e
  <-> MaxUint64 < payloadTotal p data cc r /\ e = ErrGasUintOverflow.
Proof.
  intros Hs. rewrite IntrinsicGas_exact by assumption. unfold checked.
  destruct (Z.leb_spec (payloadTotal p data cc r) MaxUint64) as [H | H].
  - split; [discriminate | lia].
  - split.
    + intros E. injection E as <-. split; [assumption | reflexivity].
    + intros [_ ->]. reflexivity.
Qed.

End GasEngine.

(** C3: with the Prague gate inactive the payload engine charges the flat
    price [TxDataGas] for every payload byte, zero or not; with the Prague
    gate active it charges [TxDataZeroGas] per zero byte and
    [TxDataNonZeroGasEIP2028] per non-zero byte.  Through [IntrinsicGas],
    with the Istanbul gate active and the Prague gate inactive, a plain
    non-creating call costs [TxGas] plus the flat price times the payload
    size, in particular [TxGas + 64 * TxDataGas] for a 64-byte payload of 32
    zero and 32 non-zero bytes.  (Each figure is returned when it fits a
    [uint64]; otherwise the result is the overflow error.) *)
Theorem IntrinsicGasPayload_pricing (p : ProtocolParams) (gas : Z)
    (data : list byte) (cc : bool) (rules : Rules) :
  ParamsOK p -> isU64 gas -> GoSlice data ->
  (IsPrague rules = false ->
     IntrinsicGasPayload p gas data cc rules
     = checked (gas + len data * TxDataGas p + initCodeCost p rules cc data)) /\
  (IsPrague rules = true ->
     IntrinsicGasPayload p gas data cc rules
     = checked (gas + nonZeroBytes data * TxDataNonZeroGasEIP2028 p
                + zeroBytes data * TxDataZeroGas p
                + initCodeCost p rules cc data)) /\
  (IsIstanbul rules = true -> IsPrague rules = false ->
     IntrinsicGas p data None None false rules
     = checked (TxGas p + len data * TxDataGas p)) /\
  (IsIstanbul rules = true -> IsPrague rules = false ->
     len data = 64 -> zeroBytes data = 32 -> nonZeroBytes data = 32 ->
     IntrinsicGas p data None None false rules
     = checked (TxGas p + 64 * TxDataGas p)).
Proof.
  intros Hp Hg Hs.
  assert (Hflat : IsPrague rules = false ->
            payloadCost p rules data = len data * TxDataGas p).
  { intros E. unfold payloadCost, nonZeroBytes. rewrite E. lia. }
  assert (Hcall : IsIstanbul rules = true -> IsPrague rules = false ->
            IntrinsicGas p data None None false rules
            = checked (TxGas p + len data * TxDataGas p)).
  { intros Hi Hpr. rewrite (IntrinsicGas_exact p Hp) by assumption.
    replace (payloadTotal p data false rules)
      with (TxGas p + len data * TxDataGas p)
      by (unfold payloadTotal, baseCost, initCodeCost;
          rewrite Hi, (Hflat Hpr); simpl; lia).
    change (listSurcharge p None None) with 0.
    unfold checked.
    destruct (Z.leb_spec (TxGas p + len data * TxDataGas p) MaxUint64) as [H | H];
      [| reflexivity].
    f_equal. rewrite Z.add_0_r. apply u64_id.
    pose proof (len_nonneg data). destruct Hp. unfold isU64 in *. nia. }
  split; [| split; [| split]].
  - intros E. rewrite (IntrinsicGasPayload_exact p Hp) by assumption.
    rewrite (Hflat E). reflexivity.
  - intros E. rewrite (IntrinsicGasPayload_exact p Hp) by assumption.
    unfold payloadCost. rewrite E. f_equal. lia.
  - exact Hcall.
  - intros Hi Hpr Hlen _ _. rewrite <- Hlen. exact (Hcall Hi Hpr).
Qed.

Lemma IntrinsicGasPayload_pricing_witness :
  ParamsOK kaiaParams /\ isU64 21000 /\ GoSlice payload64 /\
  len payload64 = 64 /\ zeroBytes payload64 = 32 /\ nonZeroBytes payload64 = 32 /\
  IntrinsicGasPayload kaiaParams 21000 payload64 false istanbulRules = Ok 27400 /\
  IntrinsicGas kaiaParams payload64 None None false istanbulRules = Ok 27400 /\
  TxDataZeroGas kaiaParams < TxDataNonZeroGasEIP2028 kaiaParams /\
  IntrinsicGasPayload kaiaParams 21000 payload64 false pragueRules = Ok 21640.
Proof.
  split; [exact kaiaParams_ok |].
  split; [unfold isU64, MaxUint64; lia |].
  split; [unfold GoSlice, MaxInt, len; simpl; lia |].
  split; [reflexivity |]. split; [reflexivity |]. split; [reflexivity |].
  cut ((IntrinsicGasPayload kaiaParams 21000 payload64 false istanbulRules = Ok 27400 /\
        IntrinsicGas kaiaParams payload64 None None false istanbulRules = Ok 27400) /\
       IntrinsicGasPayload kaiaParams 21000 payload64 false pragueRules = Ok 21640).
  { intros [[H1 H2] H3].
    split; [exact H1 | split; [exact H2 | split; [simpl; lia | exact H3]]]. }
  split.
  2:{ destruct (IntrinsicGasPayload_pricing kaiaParams 21000 payload64 false
                  pragueRules kaiaParams_ok
                  ltac:(unfold isU64, MaxUint64; lia)
                  ltac:(unfold GoSlice, MaxInt, len; simpl; lia))
        as (_ & Hsplit & _).
      rewrite (Hsplit eq_refl). reflexivity. }
  destruct (IntrinsicGasPayload_pricing kaiaParams 21000 payload64 false
              istanbulRules kaiaParams_ok
              ltac:(unfold isU64, MaxUint64; lia)
              ltac:(unfold GoSlice, MaxInt, len; simpl; lia))
    as (Hflat & _ & _ & H64).
  split.
  - rewrite (Hflat eq_refl). reflexivity.
  - rewrite (H64 eq_refl eq_refl eq_refl eq_refl eq_refl). reflexivity.
Defined.

(** *** Unchecked list surcharges *)

Lemma AccessList_StorageKeys_repeat (tuple : AccessTuple) (n : nat) :
  AccessList_StorageKeys (repeat tuple n) = Z.of_nat n * len (at_StorageKeys tuple).
Proof.
  induction n as [| n IH]; [reflexivity |].
  change (repeat tuple (S n)) with (tuple :: repeat tuple n).
  unfold AccessList_StorageKeys in *. simpl fold_right. rewrite IH. lia.
Qed.

Lemma wideAccessList_len (tuples keys : N) :
  len (wideAccessList tuples keys) = Z.of_N tuples.
Proof. apply len_repeat. Qed.

Lemma wideAccessList_StorageKeys (tuples keys : N) :
  AccessList_StorageKeys (wideAccessList tuples keys) = Z.of_N tuples * Z.of_N keys.
Proof.
  unfold wideAccessList. rewrite AccessList_StorageKeys_repeat.
  cbn [at_StorageKeys]. rewrite len_repeat. lia.
Qed.

Lemma listSurcharge_wide (p : ProtocolParams) (tuples keys : N) :
  listSurcharge p (Some (wideAccessList tuples keys)) None
  = Z.of_N tuples * TxAccessListAddressGas p
    + Z.of_N tuples * Z.of_N keys * TxAccessListStorageKeyGas p.
Proof.
  unfold listSurcharge.
  rewrite wideAccessList_len, wideAccessList_StorageKeys. lia.
Qed.

(** C2 fails on the code: the access-list surcharge is added without a
    check.  For an access list of 10^8 entries with 10^8 storage keys each
    the exact intrinsic gas is 19000000240000021000, above [MaxUint64];
    [IntrinsicGas] returns no error but the sum reduced modulo [2^64]. *)
Theorem IntrinsicGas_access_list_wraps :
  payloadTotal kaiaParams [] false istanbulRules
  + listSurcharge kaiaParams (Some (wideAccessList 100000000 100000000)) None
  = 19000000240000021000 /\
  MaxUint64 < 19000000240000021000 /\
  IntrinsicGas kaiaParams [] (Some (wideAccessList 100000000 100000000)) None
    false istanbulRules
  = Ok 553256166290469384 /\
  553256166290469384 = 19000000240000021000 mod 2 ^ 64.
Proof.
  split; [| split; [| split]].
  - rewrite listSurcharge_wide. reflexivity.
  - unfold MaxUint64. lia.
  - rewrite (IntrinsicGas_exact kaiaParams kaiaParams_ok)
      by (unfold GoSlice, MaxInt, len; simpl; lia).
    rewrite listSurcharge_wide. reflexivity.
  - reflexivity.
Qed.

(** The authorization-list surcharge is unchecked in the same way. *)
Lemma IntrinsicGas_authorization_list_wraps (auths : list SetCodeAuthorization) :
  len auths = 737869762948383 ->
  IntrinsicGas kaiaParams [] None (Some auths) false istanbulRules = Ok 44384.
Proof.
  intros Hlen.
  rewrite (IntrinsicGas_exact kaiaParams kaiaParams_ok)
    by (unfold GoSlice, MaxInt, len; simpl; lia).
  unfold listSurcharge. rewrite Hlen. reflexivity.
Qed.

(** *** Monotonicity in the payload *)

Lemma AccessList_StorageKeys_nonneg (al : AccessList) : 0 <= AccessList_StorageKeys al.
Proof.
  unfold AccessList_StorageKeys. induction al as [| tuple rest IH]; simpl; [lia |].
  pose proof (len_nonneg (at_StorageKeys tuple)). lia.
Qed.

Lemma listSurcharge_nonneg (p : ProtocolParams) (al : option AccessList)
    (auths : option (list SetCodeAuthorization)) :
  ParamsOK p -> 0 <= listSurcharge p al auths.
Proof.
  intros Hp. destruct Hp. unfold listSurcharge, isU64 in *.
  destruct al as [l |], auths as [a |];
    try pose proof (len_nonneg l); try pose proof (len_nonneg a);
    try pose proof (AccessList_StorageKeys_nonneg l); nia.
Qed.

Lemma GoSlice_app_l {A} (d e : list A) : GoSlice (d ++ e) -> GoSlice d.
Proof.
  unfold GoSlice. rewrite len_app. pose proof (len_nonneg e). lia.
Qed.

(** The exact payload total grows with the payload. *)
Lemma payloadTotal_mono (p : ProtocolParams) (d e : list byte) (cc : bool) (r : Rules) :
  ParamsOK p -> GoSlice (d ++ e) ->
  0 <= payloadTotal p d cc r <= payloadTotal p (d ++ e) cc r.
Proof.
  intros Hp Hs. pose proof (GoSlice_app_l d e Hs) as Hd.
  pose proof (zeroBytes_range d). pose proof (zeroBytes_range e).
  pose proof (nonZeroBytes_range d). pose proof (nonZeroBytes_range e).
  pose proof (len_nonneg d). pose proof (len_nonneg e).
  assert (Hld : isU64 (len d))
    by (unfold isU64, GoSlice, MaxInt, MaxUint64 in *; lia).
  assert (Hle : isU64 (len (d ++ e)))
    by (unfold isU64, GoSlice, MaxInt, MaxUint64 in *; rewrite len_app in *; lia).
  pose proof (toWordSize_mono (len d) (len (d ++ e)) Hld Hle
                ltac:(rewrite len_app; lia)) as Hw.
  pose proof (toWordSize_range (len d) Hld) as Hw0.
  pose proof (baseCost_range p Hp cc) as Hb.
  destruct Hp. unfold isU64 in Hb.
  unfold payloadTotal, payloadCost, payloadCostLegacy, initCodeCost.
  rewrite zeroBytes_app, nonZeroBytes_app.
  destruct (IsIstanbul r), (IsPrague r), (cc && IsShanghai r); nia.
Qed.

(** As long as the list surcharges do not push the sum out of the [uint64]
    range, intrinsic gas is monotone in the payload. *)
Lemma IntrinsicGas_monotone_without_wrap (p : ProtocolParams) (d e : list byte)
    (al : option AccessList) (auths : option (list SetCodeAuthorization))
    (cc : bool) (r : Rules) (g1 g2 : Z) :
  ParamsOK p -> GoSlice (d ++ e) ->
  payloadTotal p (d ++ e) cc r + listSurcharge p al auths <= MaxUint64 ->
  IntrinsicGas p d al auths cc r = Ok g1 ->
  IntrinsicGas p (d ++ e) al auths cc r = Ok g2 ->
  g1 <= g2.
Proof.
  intros Hp Hs Hfit H1 H2.
  pose proof (payloadTotal_mono p d e cc r Hp Hs) as Hm.
  pose proof (listSurcharge_nonneg p al auths Hp) as Hl.
  rewrite (IntrinsicGas_exact p Hp) in H1 by (eapply GoSlice_app_l; eassumption).
  rewrite (IntrinsicGas_exact p Hp) in H2 by assumption.
  unfold checked in H1, H2.
  destruct (Z.leb_spec (payloadTotal p d cc r) MaxUint64); [| discriminate].
  destruct (Z.leb_spec (payloadTotal p (d ++ e) cc r) MaxUint64); [| discriminate].
  injection H1 as <-. injection H2 as <-.
  rewrite !u64_id by (unfold isU64; lia). lia.
Qed.

(** Without access list and authorization list it is monotone outright. *)
Lemma IntrinsicGas_monotone_nil_lists (p : ProtocolParams) (d e : list byte)
    (cc : bool) (r : Rules) (g1 g2 : Z) :
  ParamsOK p -> GoSlice (d ++ e) ->
  IntrinsicGas p d None None cc r = Ok g1 ->
  IntrinsicGas p (d ++ e) None None cc r = Ok g2 ->
  g1 <= g2.
Proof.
  intros Hp Hs H1 H2.
  refine (IntrinsicGas_monotone_without_wrap p d e None None cc r g1 g2
            Hp Hs _ H1 H2).
  rewrite (IntrinsicGas_exact p Hp) in H2 by assumption.
  unfold checked in H2.
  destruct (Z.leb_spec (payloadTotal p (d ++ e) cc r) MaxUint64); [| discriminate].
  change (listSurcharge p None None) with 0. lia.
Qed.

(** C7 fails on the code, through the unchecked list surcharge: with an
    access list of 183269171 entries carrying 52975699 storage keys each,
    a payload of 151 non-zero bytes costs [2^64 - 16], and the same payload
    extended by one byte is reported, without error, to cost 84. *)
Theorem IntrinsicGas_not_monotone_when_wrapping :
  let al := Some (wideAccessList 183269171 52975699) in
  let d := repeat x01 151 in
  IntrinsicGas kaiaParams d al None false istanbulRules
    = Ok 18446744073709551600 /\
  IntrinsicGas kaiaParams (d ++ [x01]) al None false istanbulRules = Ok 84 /\
  84 < 18446744073709551600.
Proof.
  cbv zeta. split; [| split; [| lia]].
  - rewrite (IntrinsicGas_exact kaiaParams kaiaParams_ok)
      by (unfold GoSlice, MaxInt, len; simpl; lia).
    rewrite listSurcharge_wide. reflexivity.
  - rewrite (IntrinsicGas_exact kaiaParams kaiaParams_ok)
      by (unfold GoSlice, MaxInt, len; simpl; lia).
    rewrite listSurcharge_wide. reflexivity.
Qed.

(** ** The delegation validator *)

Lemma bytes_Equal_spec (a b : list byte) : bytes_Equal a b = true <-> a = b.
Proof.
  revert b. induction a as [| x a IH]; intros [| y b]; simpl;
    try (split; [discriminate | discriminate]); [tauto |].
  rewrite andb_true_iff, IH. split.
  - intros [Hxy ->]. apply Byte.byte_dec_bl in Hxy. subst. reflexivity.
  - intros E. injection E as -> ->. split; [apply Byte.byte_dec_lb |]; reflexivity.
Qed.

Lemma AccountType_eqb_spec (a b : AccountType) : AccountType_eqb a b = true <-> a = b.
Proof. destruct a, b; simpl; split; (reflexivity || discriminate). Qed.

(** Unfolds the state monad. *)
Ltac run_state :=
  unfold mbind, mret, StateM_bind, StateM_ret, GetAccount; cbn beta iota.


(** On the contract-execution family the validator is this decision. *)
Lemma validate7702_contract_execution_eq (h : list byte) (txType from to : Z)
    (s : gmap Z Account) :
  In txType contractExecutionTypes ->
  fst (validate7702 h txType from to s)
  = match s !! to with
    | None => Some ErrToMustBeEOAWithCodeOrSCA
    | Some acc =>
        if AccountType_eqb (acc_Type acc) SmartContractAccountType then None
        else match acc_EOA acc with
             | None => None
             | Some eoa =>
                 if bytes_Equal (GetCodeHash eoa) h
                 then Some ErrToMustBeEOAWithCodeOrSCA else None
             end
    end.
Proof.
  intros Hin. unfold contractExecutionTypes in Hin. simpl in Hin.
  destruct Hin as [<- | [<- | [<- | []]]]; unfold validate7702; simpl; run_state;
    (destruct (s !! to) as [acc |]; [| reflexivity]);
    (destruct (AccountType_eqb (acc_Type acc) SmartContractAccountType);
       [reflexivity |]);
    (destruct (acc_EOA acc) as [eoa |]; [| reflexivity]);
    destruct (bytes_Equal (GetCodeHash eoa) h); reflexivity.
Qed.




(** * Part III: further properties of the transaction layer *)

(** ** Classification predicates *)

Lemma allFrom_spec (n : nat) (f : Z -> bool) (from : Z) :
  allFrom n f from = true ->
  forall x, from <= x < from + Z.of_nat n -> f x = true.
Proof.
  revert from. induction n as [| n IH]; intros from H x Hx; [lia |].
  simpl in H. apply andb_true_iff in H as [H0 H1].
  destruct (Z.eq_dec x from) as [-> | Hne]; [exact H0 |].
  apply (IH (from + 1) H1). lia.
Qed.

(** The family tests as one decision on a 16-bit tag. *)
Lemma family_ranges_check :
  allFrom 65536 (fun t =>
      Bool.eqb (IsAccountUpdate t)
        ((TxTypeAccountUpdate <=? t) && (t <? TxTypeAccountUpdate + 8))
      && Bool.eqb (IsContractDeploy t)
        ((TxTypeSmartContractDeploy <=? t) && (t <? TxTypeSmartContractDeploy + 8))
      && Bool.eqb (IsCancelTransaction t)
        ((TxTypeCancel <=? t) && (t <? TxTypeCancel + 8))
      && Bool.eqb (IsChainDataAnchoring t)
        ((TxTypeChainDataAnchoring <=? t) && (t <? TxTypeChainDataAnchoring + 8))
      && Bool.eqb (IsEthTypedTransaction t) ((0x7800 <=? t) && (t <=? 0x78ff)))
    0 = true.
Proof. vm_compute. reflexivity. Qed.

(** X1: the family predicates ignore the low three bits of the tag: each
    is true exactly on the block of eight tags that starts at the family's
    base tag (so also on the five undeclared tags of the block), the
    Ethereum-typed test is true exactly on [0x7800..0x78ff], and therefore
    no tag belongs to two of these classes. *)
Theorem family_predicates_blocks (t : Z) :
  isU16 t ->
  (IsAccountUpdate t = true
     <-> TxTypeAccountUpdate <= t < TxTypeAccountUpdate + 8) /\
  (IsContractDeploy t = true
     <-> TxTypeSmartContractDeploy <= t < TxTypeSmartContractDeploy + 8) /\
  (IsCancelTransaction t = true <-> TxTypeCancel <= t < TxTypeCancel + 8) /\
  (IsChainDataAnchoring t = true
     <-> TxTypeChainDataAnchoring <= t < TxTypeChainDataAnchoring + 8) /\
  (IsEthTypedTransaction t = true <-> 0x7800 <= t <= 0x78ff) /\
  (Z.b2z (IsAccountUpdate t) + Z.b2z (IsContractDeploy t)
   + Z.b2z (IsCancelTransaction t) + Z.b2z (IsChainDataAnchoring t)
   + Z.b2z (IsEthTypedTransaction t) + Z.b2z (IsLegacyTransaction t) <= 1).
Proof.
  intros Ht.
  pose proof (allFrom_spec 65536 _ 0 family_ranges_check t Ht) as H.
  cbv beta in H.
  repeat (apply andb_true_iff in H as [H ?]).
  repeat match goal with
  | E : Bool.eqb _ _ = true |- _ => apply Bool.eqb_prop in E
  end.
  assert (Hl : IsLegacyTransaction t = true <-> t = 0).
  { unfold IsLegacyTransaction. apply Z.eqb_eq. }
  change TxTypeAccountUpdate with 32 in *.
  change TxTypeSmartContractDeploy with 40 in *.
  change TxTypeCancel with 56 in *.
  change TxTypeChainDataAnchoring with 72 in *.
  repeat match goal with
  | E : ?b = (_ && _) |- _ =>
      assert (b = true <-> _) by (rewrite E, andb_true_iff; reflexivity); clear E
  end.
  repeat match goal with
  | E : _ <-> ((_ <=? _) = true /\ (_ <? _) = true) |- _ =>
      rewrite Z.leb_le, Z.ltb_lt in E
  | E : _ <-> ((_ <=? _) = true /\ (_ <=? _) = true) |- _ =>
      rewrite !Z.leb_le in E
  end.
  repeat split; try tauto.
  destruct (IsAccountUpdate t), (IsContractDeploy t), (IsCancelTransaction t),
    (IsChainDataAnchoring t), (IsEthTypedTransaction t), (IsLegacyTransaction t);
    simpl; try lia; exfalso;
    repeat match goal with
    | E : true = true <-> _ |- _ => apply proj1 in E; specialize (E eq_refl)
    end; lia.
Qed.

Lemma family_predicates_blocks_witness :
  isU16 35 /\ IsAccountUpdate 35 = true /\ IsContractDeploy 35 = false.
Proof.
  assert (H : isU16 35) by (unfold isU16; lia).
  split; [exact H |].
  destruct (family_predicates_blocks 35 H) as (Hau & Hcd & _).
  split.
  - apply Hau. change TxTypeAccountUpdate with 32. lia.
  - apply not_true_is_false. intros E. apply Hcd in E.
    change TxTypeSmartContractDeploy with 40 in E. lia.
Defined.

(** X2: a tag classified as fee-delegated-with-ratio is also classified
    as fee-delegated, and a legacy or Ethereum-typed tag is classified as
    neither, whatever its low bits. *)
Theorem IsFeeDelegatedWithRatio_implies_IsFeeDelegated (t : Z) :
  (IsFeeDelegatedWithRatioTransaction t = true ->
     IsFeeDelegatedTransaction t = true) /\
  (IsEthereumTransaction t = true ->
     IsFeeDelegatedTransaction t = false /\
     IsFeeDelegatedWithRatioTransaction t = false).
Proof.
  assert (Hm : 0 <= TxTypeMask t < 256)
    by (unfold TxTypeMask, u8; apply Z.mod_pos_bound; lia).
  unfold IsFeeDelegatedWithRatioTransaction, IsFeeDelegatedTransaction.
  rewrite (delegation_mask_bits _ Hm). split.
  - intros H. apply andb_true_iff in H as [-> ->]. rewrite orb_true_r. reflexivity.
  - intros ->. rewrite !andb_false_r. split; reflexivity.
Qed.

Lemma IsFeeDelegatedWithRatio_implies_IsFeeDelegated_witness :
  IsFeeDelegatedWithRatioTransaction TxTypeFeeDelegatedCancelWithRatio = true /\
  IsFeeDelegatedTransaction TxTypeFeeDelegatedCancelWithRatio = true.
Proof.
  split; [reflexivity |].
  apply (proj1 (IsFeeDelegatedWithRatio_implies_IsFeeDelegated
                  TxTypeFeeDelegatedCancelWithRatio)).
  reflexivity.
Defined.

(** X3: on the declared tags the delegation predicates follow the names:
    [IsFeeDelegatedTransaction] holds exactly for the fourteen
    [FeeDelegated...] tags, [IsFeeDelegatedWithRatioTransaction] exactly for
    the seven [...WithRatio] tags, and a declared fee-delegated tag has
    exactly one of the two delegation bits set. *)
Theorem delegation_predicates_on_declared_tags :
  Forall (fun t =>
            IsFeeDelegatedTransaction t = tagIn t feeDelegatedTxTypes /\
            IsFeeDelegatedWithRatioTransaction t = tagIn t withRatioTxTypes /\
            IsFeeDelegatedTransaction t
            = xorb (hasFeeDelegationBit t) (hasFeeDelegationWithRatioBit t)
              && negb (IsEthTypedTransaction t))
         declaredTxTypes /\
  length feeDelegatedTxTypes = 14%nat /\ length withRatioTxTypes = 7%nat /\
  Forall (fun t => In t declaredTxTypes) feeDelegatedTxTypes.
Proof.
  split; [| split; [reflexivity | split; [reflexivity |]]].
  - unfold declaredTxTypes.
    repeat (apply List.Forall_cons; [ vm_compute; repeat split; reflexivity |]).
    apply List.Forall_nil.
  - cbv [feeDelegatedTxTypes withRatioTxTypes delegableFamilies List.map app].
    repeat (apply List.Forall_cons; [ apply tagIn_In; reflexivity |]).
    apply List.Forall_nil.
Qed.

(** The registry accepts exactly the constructible tags. *)
Lemma NewTxInternalData_accepts (t : Z) :
  match NewTxInternalData t with
  | Ok d => tagIn t constructibleTxTypes = true /\ TxInternalData_Type d = t
  | Err e => tagIn t constructibleTxTypes = false /\ e = errUndefinedTxType
  end.
Proof.
  unfold NewTxInternalData.
  repeat match goal with
  | |- context [ t =? ?c ] => case_tag t c; [ split; reflexivity | ]
  end.
  split; [| reflexivity].
  apply not_true_is_false. intros H.
  apply tagIn_In in H as Hin. vm_compute in Hin.
  repeat (destruct Hin as [Hin | Hin]; [ subst t; contradiction |]).
  exact Hin.
Qed.

(** X4: on every tag that [NewTxInternalData] accepts the predicates follow
    the variant's name: the family predicates hold exactly on the three tags
    of their family, no accepted tag is an account creation, and the
    Ethereum transactions are the legacy and the three Ethereum-typed
    tags. *)
Theorem predicates_on_constructible_tags (t : Z) :
  match NewTxInternalData t with
  | Ok _ =>
      IsAccountUpdate t = tagIn t (familyOf TxTypeAccountUpdate) /\
      IsContractDeploy t = tagIn t (familyOf TxTypeSmartContractDeploy) /\
      IsCancelTransaction t = tagIn t (familyOf TxTypeCancel) /\
      IsChainDataAnchoring t = tagIn t (familyOf TxTypeChainDataAnchoring) /\
      IsAccountCreation t = false /\
      IsEthereumTransaction t
        = tagIn t [TxTypeLegacyTransaction; TxTypeEthereumAccessList;
                   TxTypeEthereumDynamicFee; TxTypeEthereumSetCode]
  | Err _ => tagIn t constructibleTxTypes = false
  end.
Proof.
  pose proof (NewTxInternalData_accepts t) as Hfail.
  revert Hfail. unfold NewTxInternalData.
  repeat match goal with
  | |- context [ t =? ?c ] =>
      case_tag t c; [ intros _; vm_compute; repeat split; reflexivity | ]
  end.
  intros [H _]. exact H.
Qed.

(** ** Fee split *)

(** X5: with a valid ratio and a non-negative fee neither share is
    negative and neither exceeds the fee; the sender pays something of every
    positive fee, and the fee payer pays something once the fee reaches
    100. *)
Theorem CalcFeeWithRatio_shares_bounded (r fee : Z) :
  FeeRatio_IsValid r = true -> 0 <= fee ->
  let '(payerShare, senderShare) := CalcFeeWithRatio r fee in
  0 <= payerShare <= fee /\ 0 <= senderShare <= fee /\
  (0 < fee -> 0 < senderShare) /\
  (100 <= fee -> 0 < payerShare).
Proof.
  intros Hr Hfee. unfold FeeRatio_IsValid in Hr.
  apply andb_true_iff in Hr as [H1 H99]. apply Z.leb_le in H1, H99.
  rewrite CalcFeeWithRatio_eq by (unfold isU8; lia).
  pose proof (Z.mul_div_le (fee * r) 100 ltac:(lia)).
  pose proof (Z.mul_succ_div_gt (fee * r) 100 ltac:(lia)).
  repeat split; nia.
Qed.

Lemma CalcFeeWithRatio_shares_bounded_witness :
  FeeRatio_IsValid 99 = true /\ 0 <= 1 /\
  let '(payerShare, senderShare) := CalcFeeWithRatio 99 1 in
  0 <= payerShare <= 1 /\ 0 <= senderShare <= 1 /\
  (0 < 1 -> 0 < senderShare) /\
  (100 <= 1 -> 0 < payerShare).
Proof.
  split; [reflexivity | split; [lia |]].
  apply (CalcFeeWithRatio_shares_bounded 99 1); [reflexivity | lia].
Defined.

(** X6: the split is monotone: for ratios up to 100 and non-negative fees,
    a larger ratio or a larger fee never lowers the payer's share, a larger
    fee never lowers the sender's share, and a larger ratio never raises
    it. *)
Theorem CalcFeeWithRatio_monotone (r1 r2 fee1 fee2 : Z) :
  0 <= r1 <= r2 -> r2 <= 100 -> 0 <= fee1 <= fee2 ->
  fst (CalcFeeWithRatio r1 fee1) <= fst (CalcFeeWithRatio r2 fee2) /\
  snd (CalcFeeWithRatio r1 fee1) <= snd (CalcFeeWithRatio r1 fee2) /\
  snd (CalcFeeWithRatio r2 fee1) <= snd (CalcFeeWithRatio r1 fee1).
Proof.
  intros Hr Hr2 Hfee.
  rewrite !CalcFeeWithRatio_eq by (unfold isU8; lia). simpl fst. simpl snd.
  assert (Hp : fee1 * r1 / 100 <= fee2 * r2 / 100)
    by (apply Z.div_le_mono; nia).
  assert (Hq : fee1 * r2 / 100 >= fee1 * r1 / 100)
    by (apply Z.le_ge, Z.div_le_mono; nia).
  assert (Hs : fee2 * r1 / 100 <= fee1 * r1 / 100 + (fee2 - fee1)).
  { rewrite <- Z.div_add by lia. apply Z.div_le_mono; nia. }
  lia.
Qed.

Lemma CalcFeeWithRatio_monotone_witness :
  0 <= 30 <= 70 /\ 70 <= 100 /\ 0 <= 50 <= 999 /\
  fst (CalcFeeWithRatio 30 50) <= fst (CalcFeeWithRatio 70 999) /\
  snd (CalcFeeWithRatio 30 50) <= snd (CalcFeeWithRatio 30 999) /\
  snd (CalcFeeWithRatio 70 50) <= snd (CalcFeeWithRatio 30 50).
Proof.
  split; [lia | split; [lia | split; [lia |]]].
  apply (CalcFeeWithRatio_monotone 30 70 50 999); lia.
Defined.

(** ** Word count and payload engine *)

(** X7: on the whole [uint64] range the word count is the exact ceiling of
    [n / 32], the saturating branch included; it is zero only for [n = 0],
    never above [2^59], and monotone. *)
Theorem toWordSize_exact_ceiling (n : Z) :
  isU64 n ->
  isCeilDiv n 32 (toWordSize n) /\
  (toWordSize n = 0 <-> n = 0) /\
  0 <= toWordSize n <= 2 ^ 59 /\
  (forall m, isU64 m -> n <= m -> toWordSize n <= toWordSize m).
Proof.
  intros Hn. pose proof (toWordSize_ceil n Hn) as Hc.
  pose proof (toWordSize_range n Hn) as Hr.
  change (MaxUint64 / 32 + 1) with (2 ^ 59) in Hr.
  split; [exact Hc |]. split; [| split; [exact Hr |]].
  - unfold isCeilDiv, isU64 in *. lia.
  - intros m Hm Hle. apply toWordSize_mono; assumption.
Qed.

Lemma toWordSize_exact_ceiling_witness :
  isU64 (MaxUint64 - 31) /\ isCeilDiv (MaxUint64 - 31) 32 (toWordSize (MaxUint64 - 31)).
Proof.
  assert (H : isU64 (MaxUint64 - 31)) by (unfold isU64, MaxUint64; lia).
  split; [exact H |]. exact (proj1 (toWordSize_exact_ceiling _ H)).
Defined.

(** X8: [IntrinsicGasPayload] never wraps.  When it returns a value, the
    value is the exact sum of the initial gas, the per-byte cost and the
    contract-creation word cost, it is not below the initial gas and fits a
    [uint64]; its only error is the overflow error, returned exactly when
    that exact sum exceeds [MaxUint64]. *)
Theorem IntrinsicGasPayload_never_wraps (p : ProtocolParams) (gas : Z)
    (data : list byte) (cc : bool) (rules : Rules) :
  ParamsOK p -> isU64 gas -> GoSlice data ->
  match IntrinsicGasPayload p gas data cc rules with
  | Ok g =>
      g = gas + payloadCost p rules data + initCodeCost p rules cc data /\
      gas <= g <= MaxUint64
  | Err e =>
      e = ErrGasUintOverflow /\
      MaxUint64 < gas + payloadCost p rules data + initCodeCost p rules cc data
  end.
Proof.
  intros Hp Hg Hs. rewrite (IntrinsicGasPayload_exact p Hp) by assumption.
  unfold checked.
  destruct (Z.leb_spec (gas + payloadCost p rules data + initCodeCost p rules cc data)
              MaxUint64) as [H | H]; [| split; [reflexivity | exact H]].
  split; [reflexivity |]. split; [| exact H].
  pose proof (zeroBytes_range data). pose proof (nonZeroBytes_range data).
  pose proof (len_nonneg data).
  assert (Hlen : isU64 (len data))
    by (unfold isU64, GoSlice, MaxInt, MaxUint64 in *; lia).
  pose proof (toWordSize_range (len data) Hlen).
  destruct Hp. unfold payloadCost, initCodeCost.
  destruct (IsPrague rules), (cc && IsShanghai rules); nia.
Qed.

Lemma IntrinsicGasPayload_never_wraps_witness :
  ParamsOK kaiaParams /\ isU64 (MaxUint64 - 6399) /\ GoSlice payload64 /\
  IntrinsicGasPayload kaiaParams (MaxUint64 - 6399) payload64 false istanbulRules
  = Err ErrGasUintOverflow.
Proof.
  assert (Hg : isU64 (MaxUint64 - 6399)) by (unfold isU64, MaxUint64; lia).
  assert (Hs : GoSlice payload64) by (unfold GoSlice, MaxInt, len; simpl; lia).
  split; [exact kaiaParams_ok | split; [exact Hg | split; [exact Hs |]]].
  pose proof (IntrinsicGasPayload_never_wraps kaiaParams (MaxUint64 - 6399)
                payload64 false istanbulRules kaiaParams_ok Hg Hs) as H.
  destruct (IntrinsicGasPayload kaiaParams (MaxUint64 - 6399) payload64 false
              istanbulRules) as [g | e].
  - exfalso. destruct H as [Hv [_ Hle]]. subst g. vm_compute in Hle. apply Hle.
    reflexivity.
  - destruct H as [-> _]. reflexivity.
Defined.

(** X9: the pre-Istanbul engine never wraps either, and on that path the
    Shanghai and Prague gates have no effect: [IntrinsicGas] charges the
    Frontier price per non-zero byte and [TxDataZeroGas] per zero byte, and a
    contract creation pays no word cost. *)
Theorem IntrinsicGas_legacy_path (p : ProtocolParams) (data : list byte)
    (al : option AccessList) (auths : option (list SetCodeAuthorization))
    (cc : bool) (r r' : Rules) (gas : Z) :
  ParamsOK p -> isU64 gas -> GoSlice data ->
  IsIstanbul r = false -> IsIstanbul r' = false ->
  IntrinsicGasPayloadLegacy p gas data
  = checked (gas + nonZeroBytes data * TxDataNonZeroGasFrontier p
             + zeroBytes data * TxDataZeroGas p) /\
  IntrinsicGas p data al auths cc r = IntrinsicGas p data al auths cc r' /\
  IntrinsicGas p data None None cc r
  = checked (baseCost p cc + nonZeroBytes data * TxDataNonZeroGasFrontier p
             + zeroBytes data * TxDataZeroGas p).
Proof.
  intros Hp Hg Hs Hr Hr'. split; [| split].
  - rewrite (IntrinsicGasPayloadLegacy_exact p Hp) by assumption.
    unfold payloadCostLegacy. f_equal. lia.
  - unfold IntrinsicGas. rewrite Hr, Hr'. reflexivity.
  - unfold IntrinsicGas. rewrite Hr. fold (baseCost p cc).
    rewrite (IntrinsicGasPayloadLegacy_exact p Hp)
      by (assumption || apply baseCost_range; assumption).
    unfold payloadCostLegacy.
    replace (baseCost p cc + (nonZeroBytes data * TxDataNonZeroGasFrontier p
                              + zeroBytes data * TxDataZeroGas p))
      with (baseCost p cc + nonZeroBytes data * TxDataNonZeroGasFrontier p
            + zeroBytes data * TxDataZeroGas p) by lia.
    destruct (checked _); reflexivity.
Qed.

Lemma IntrinsicGas_legacy_path_witness :
  IntrinsicGas kaiaParams payload64 None None true
    {| IsIstanbul := false; IsShanghai := true; IsPrague := true |}
  = Ok 55304.
Proof.
  destruct (IntrinsicGas_legacy_path kaiaParams payload64 None None true
              {| IsIstanbul := false; IsShanghai := true; IsPrague := true |}
              {| IsIstanbul := false; IsShanghai := false; IsPrague := false |}
              0 kaiaParams_ok
              ltac:(unfold isU64, MaxUint64; lia)
              ltac:(unfold GoSlice, MaxInt, len; simpl; lia)
              eq_refl eq_refl) as (_ & _ & H).
  rewrite H. reflexivity.
Defined.

Lemma IntrinsicGas_exact_when_fits_aux (p : ProtocolParams) (data : list byte)
    (al : option AccessList) (auths : option (list SetCodeAuthorization))
    (cc : bool) (r : Rules) :
  ParamsOK p -> GoSlice data ->
  (exactIntrinsicGas p data al auths cc r <= MaxUint64 ->
     IntrinsicGas p data al auths cc r
     = Ok (exactIntrinsicGas p data al auths cc r)) /\
  (forall g, IntrinsicGas p data al auths cc r = Ok g ->
     payloadTotal p data cc r <= MaxUint64 /\
     g = u64 (exactIntrinsicGas p data al auths cc r)).
Proof.
  intros Hp Hs.
  pose proof (listSurcharge_nonneg p al auths Hp) as Hl.
  pose proof (payloadTotal_mono p data [] cc r Hp
                ltac:(rewrite app_nil_r; exact Hs)) as [Hpos _].
  rewrite (IntrinsicGas_exact p Hp) by assumption. unfold checked, exactIntrinsicGas.
  destruct (Z.leb_spec (payloadTotal p data cc r) MaxUint64) as [H | H].
  - split.
    + intros Hfit. f_equal. apply u64_id. unfold isU64. lia.
    + intros g E. injection E as <-. split; [exact H | reflexivity].
  - split; [lia | discriminate].
Qed.

(** X10: whenever the exact total (base cost, payload cost, word cost and
    list surcharges) fits a [uint64], [IntrinsicGas] returns exactly that
    total; its only error is the overflow error, and it is returned exactly
    when the payload part alone exceeds [MaxUint64]. *)
Theorem IntrinsicGas_exact_when_fits (p : ProtocolParams) (data : list byte)
    (al : option AccessList) (auths : option (list SetCodeAuthorization))
    (cc : bool) (r : Rules) :
  ParamsOK p -> GoSlice data ->
  (exactIntrinsicGas p data al auths cc r <= MaxUint64 ->
     IntrinsicGas p data al auths cc r
     = Ok (exactIntrinsicGas p data al auths cc r)) /\
  (forall e, IntrinsicGas p data al auths cc r = Err e
     <-> e = ErrGasUintOverflow /\ MaxUint64 < payloadTotal p data cc r).
Proof.
  intros Hp Hs. split.
  - exact (proj1 (IntrinsicGas_exact_when_fits_aux p data al auths cc r Hp Hs)).
  - intros e. rewrite (IntrinsicGas_error_iff p Hp) by assumption. tauto.
Qed.

Lemma IntrinsicGas_exact_when_fits_witness :
  IntrinsicGas kaiaParams payload64
    (Some [ {| at_Address := 1; at_StorageKeys := [7; 8] |};
            {| at_Address := 1; at_StorageKeys := [7] |} ])
    (Some [ {| auth_Address := 2 |} ]) true pragueRules
  = Ok 89144.
Proof.
  destruct (IntrinsicGas_exact_when_fits kaiaParams payload64
              (Some [ {| at_Address := 1; at_StorageKeys := [7; 8] |};
                      {| at_Address := 1; at_StorageKeys := [7] |} ])
              (Some [ {| auth_Address := 2 |} ]) true pragueRules
              kaiaParams_ok ltac:(unfold GoSlice, MaxInt, len; simpl; lia))
    as [H _].
  rewrite H; [reflexivity |]. vm_compute. discriminate.
Defined.

(** X11: for a fixed rule set, creation flag and lists, extending the
    payload never lowers a successful intrinsic gas as long as the exact
    total of the longer payload fits a [uint64]; without access list and
    authorization list this holds whenever both calls succeed. *)
Theorem IntrinsicGas_payload_monotone (p : ProtocolParams) (d e : list byte)
    (al : option AccessList) (auths : option (list SetCodeAuthorization))
    (cc : bool) (r : Rules) (g1 g2 : Z) :
  ParamsOK p -> GoSlice (d ++ e) ->
  IntrinsicGas p d al auths cc r = Ok g1 ->
  IntrinsicGas p (d ++ e) al auths cc r = Ok g2 ->
  exactIntrinsicGas p (d ++ e) al auths cc r <= MaxUint64
  \/ (al = None /\ auths = None) ->
  g1 <= g2.
Proof.
  intros Hp Hs H1 H2 [Hfit | [-> ->]].
  - exact (IntrinsicGas_monotone_without_wrap p d e al auths cc r g1 g2
             Hp Hs Hfit H1 H2).
  - exact (IntrinsicGas_monotone_nil_lists p d e cc r g1 g2 Hp Hs H1 H2).
Qed.

Lemma IntrinsicGas_payload_monotone_witness :
  IntrinsicGas kaiaParams payload64 None None true pragueRules = Ok 53644 /\
  IntrinsicGas kaiaParams (payload64 ++ [x01]) None None true pragueRules = Ok 53662 /\
  53644 <= 53662.
Proof.
  assert (H1 : IntrinsicGas kaiaParams payload64 None None true pragueRules = Ok 53644)
    by reflexivity.
  assert (H2 : IntrinsicGas kaiaParams (payload64 ++ [x01]) None None true pragueRules
               = Ok 53662) by reflexivity.
  split; [exact H1 | split; [exact H2 |]].
  apply (IntrinsicGas_payload_monotone kaiaParams payload64 [x01] None None true
           pragueRules 53644 53662 kaiaParams_ok
           ltac:(unfold GoSlice, MaxInt, len; simpl; lia) H1 H2).
  right. split; reflexivity.
Defined.

Lemma AccessList_StorageKeys_app (al1 al2 : AccessList) :
  AccessList_StorageKeys (al1 ++ al2)
  = AccessList_StorageKeys al1 + AccessList_StorageKeys al2.
Proof.
  unfold AccessList_StorageKeys.
  induction al1 as [| tuple rest IH]; simpl; [reflexivity |]. rewrite IH. lia.
Qed.

Lemma AccessList_StorageKeys_perm (al1 al2 : AccessList) :
  Permutation al1 al2 -> AccessList_StorageKeys al1 = AccessList_StorageKeys al2.
Proof.
  unfold AccessList_StorageKeys.
  induction 1 as [| x l l' _ IH | x y l | l l' l'' _ IH1 _ IH2]; simpl; lia.
Qed.

(** X12: the access list is charged entry by entry, without
    deduplication and without regard to order: a list repeated twice costs
    twice its surcharge (when the total fits a [uint64]), a reordered list
    costs the same, and empty non-nil lists cost the same as nil lists. *)
Theorem IntrinsicGas_access_list_charging (p : ProtocolParams) (data : list byte)
    (al al' : AccessList) (auths : option (list SetCodeAuthorization))
    (cc : bool) (r : Rules) :
  ParamsOK p -> GoSlice data ->
  (exactIntrinsicGas p data (Some (al ++ al)) None cc r <= MaxUint64 ->
     IntrinsicGas p data (Some (al ++ al)) None cc r
     = Ok (payloadTotal p data cc r + 2 * listSurcharge p (Some al) None)) /\
  (Permutation al al' ->
     IntrinsicGas p data (Some al) auths cc r
     = IntrinsicGas p data (Some al') auths cc r) /\
  IntrinsicGas p data (Some []) (Some []) cc r = IntrinsicGas p data None None cc r.
Proof.
  intros Hp Hs. split; [| split].
  - intros Hfit.
    rewrite (proj1 (IntrinsicGas_exact_when_fits_aux p data (Some (al ++ al)) None
                      cc r Hp Hs) Hfit).
    f_equal. unfold exactIntrinsicGas, listSurcharge.
    rewrite len_app, AccessList_StorageKeys_app. lia.
  - intros Hperm. rewrite !(IntrinsicGas_exact p Hp) by assumption.
    unfold listSurcharge, len.
    rewrite (Permutation_length Hperm), (AccessList_StorageKeys_perm al al' Hperm).
    reflexivity.
  - rewrite !(IntrinsicGas_exact p Hp) by assumption. reflexivity.
Qed.

(** X13: an empty payload without lists costs exactly the base cost
    ([TxGasContractCreation] for a creation, [TxGas] otherwise) under every
    rule set, and without lists no successful result is below the base
    cost. *)
Theorem IntrinsicGas_base_cost (p : ProtocolParams) (data : list byte)
    (cc : bool) (r : Rules) :
  ParamsOK p -> GoSlice data ->
  IntrinsicGas p [] None None cc r
  = Ok (if cc then TxGasContractCreation p else TxGas p) /\
  (forall g, IntrinsicGas p data None None cc r = Ok g ->
     (if cc then TxGasContractCreation p else TxGas p) <= g).
Proof.
  intros Hp Hs. fold (baseCost p cc).
  pose proof (baseCost_range p Hp cc) as Hb.
  split.
  - rewrite (IntrinsicGas_exact p Hp) by (unfold GoSlice, MaxInt, len; simpl; lia).
    assert (E : payloadTotal p [] cc r = baseCost p cc).
    { unfold payloadTotal, payloadCost, payloadCostLegacy, initCodeCost.
      change (nonZeroBytes []) with 0. change (zeroBytes []) with 0.
      change (toWordSize (len (@nil byte))) with 0.
      destruct (IsIstanbul r), (IsPrague r), (cc && IsShanghai r); lia. }
    rewrite E. unfold checked.
    destruct (Z.leb_spec (baseCost p cc) MaxUint64) as [_ | H];
      [| unfold isU64 in Hb; lia].
    change (listSurcharge p None None) with 0. rewrite Z.add_0_r.
    f_equal. apply u64_id. exact Hb.
  - intros g Hg.
    pose proof (IntrinsicGas_monotone_nil_lists p [] data cc r (baseCost p cc) g Hp Hs)
      as Hm.
    apply Hm; [| exact Hg].
    rewrite (IntrinsicGas_exact p Hp) by (unfold GoSlice, MaxInt, len; simpl; lia).
    assert (E : payloadTotal p [] cc r = baseCost p cc).
    { unfold payloadTotal, payloadCost, payloadCostLegacy, initCodeCost.
      change (nonZeroBytes []) with 0. change (zeroBytes []) with 0.
      change (toWordSize (len (@nil byte))) with 0.
      destruct (IsIstanbul r), (IsPrague r), (cc && IsShanghai r); lia. }
    rewrite E. unfold checked.
    destruct (Z.leb_spec (baseCost p cc) MaxUint64) as [_ | H];
      [| unfold isU64 in Hb; lia].
    change (listSurcharge p None None) with 0. rewrite Z.add_0_r.
    f_equal. apply u64_id. exact Hb.
Qed.

Lemma IntrinsicGas_base_cost_witness :
  ParamsOK kaiaParams /\ GoSlice payload64 /\
  IntrinsicGas kaiaParams [] None None true pragueRules = Ok 53000.
Proof.
  split; [exact kaiaParams_ok |].
  assert (Hs : GoSlice payload64) by (unfold GoSlice, MaxInt, len; simpl; lia).
  split; [exact Hs |].
  exact (proj1 (IntrinsicGas_base_cost kaiaParams payload64 true pragueRules
                  kaiaParams_ok Hs)).
Defined.

Lemma IntrinsicGas_access_list_charging_witness :
  IntrinsicGas kaiaParams payload64
    (Some ([ {| at_Address := 1; at_StorageKeys := [7; 8] |} ]
           ++ [ {| at_Address := 1; at_StorageKeys := [7; 8] |} ]))
    None false istanbulRules
  = Ok (27400 + 2 * 6200).
Proof.
  destruct (IntrinsicGas_access_list_charging kaiaParams payload64
              [ {| at_Address := 1; at_StorageKeys := [7; 8] |} ]
              [ {| at_Address := 1; at_StorageKeys := [7; 8] |} ]
              None false istanbulRules kaiaParams_ok
              ltac:(unfold GoSlice, MaxInt, len; simpl; lia)) as [H _].
  rewrite H; [reflexivity |]. vm_compute. discriminate.
Defined.

(** ** The delegation validator, other groups *)

(** The decision of the guard "must be an externally-owned account without
    code" that groups 1 and 2 apply to an account. *)
Lemma validate7702_group_eq (h : list byte) (txType from to : Z)
    (s : gmap Z Account) :
  (In txType valueTransferTypes ->
   fst (validate7702 h txType from to s)
   = match s !! to with
     | None => None
     | Some acc =>
         if AccountType_eqb (acc_Type acc) SmartContractAccountType
         then Some ErrToMustBeEOAWithoutCode
         else match acc_EOA acc with
              | None => Some ErrToMustBeEOAWithoutCode
              | Some eoa =>
                  if bytes_Equal (GetCodeHash eoa) h then None
                  else Some ErrToMustBeEOAWithoutCode
              end
     end) /\
  (In txType accountUpdateTypes ->
   fst (validate7702 h txType from to s)
   = match s !! from with
     | None => None
     | Some acc =>
         if AccountType_eqb (acc_Type acc) SmartContractAccountType
         then Some ErrFromMustBeEOAWithoutCode
         else match acc_EOA acc with
              | None => Some ErrFromMustBeEOAWithoutCode
              | Some eoa =>
                  if bytes_Equal (GetCodeHash eoa) h then None
                  else Some ErrFromMustBeEOAWithoutCode
              end
     end).
Proof.
  split; intros Hin; simpl in Hin;
    repeat (destruct Hin as [<- | Hin]); try contradiction;
    unfold validate7702; simpl; run_state.
  all: try (destruct (s !! to) as [acc |]; [| reflexivity]).
  all: try (destruct (s !! from) as [acc |]; [| reflexivity]).
  all: destruct (AccountType_eqb (acc_Type acc) SmartContractAccountType);
         [reflexivity |];
       (destruct (acc_EOA acc) as [eoa |]; [| reflexivity]);
       destruct (bytes_Equal (GetCodeHash eoa) h); reflexivity.
Qed.

(** The codeless-EOA test as a decision. *)
Lemma isCodelessEOA_decision (h : list byte) (acc : Account) :
  isCodelessEOA h acc <->
  (if AccountType_eqb (acc_Type acc) SmartContractAccountType then false
   else match acc_EOA acc with
        | None => false
        | Some eoa => bytes_Equal (GetCodeHash eoa) h
        end) = true.
Proof.
  unfold isCodelessEOA.
  destruct (AccountType_eqb (acc_Type acc) SmartContractAccountType) eqn:Et.
  - apply AccountType_eqb_spec in Et. split; [intros [Hn _]; contradiction | discriminate].
  - assert (Hn : acc_Type acc <> SmartContractAccountType).
    { intros E. apply AccountType_eqb_spec in E. congruence. }
    destruct (acc_EOA acc) as [eoa |].
    + rewrite bytes_Equal_spec. split.
      * intros (_ & eoa' & E & Hh). injection E as <-. exact Hh.
      * intros Hh. split; [exact Hn |]. exists eoa. split; [reflexivity | exact Hh].
    + split; [intros (_ & eoa' & E & _); discriminate | discriminate].
Qed.

(** X14: for the six value-transfer types the validator passes if and
    only if the recipient does not exist or is an externally-owned account
    whose code hash is the empty-code hash; a contract account, an account
    that is not an externally-owned account and an externally-owned account
    with code all fail with the recipient-must-be-codeless error.  The
    sender plays no role. *)
Theorem validate7702_value_transfer (h : list byte) (txType from from' to : Z)
    (s : gmap Z Account) :
  In txType valueTransferTypes ->
  let res := fst (validate7702 h txType from to s) in
  (res = None \/ res = Some ErrToMustBeEOAWithoutCode) /\
  (res = None <->
     s !! to = None \/ exists acc, s !! to = Some acc /\ isCodelessEOA h acc) /\
  res = fst (validate7702 h txType from' to s).
Proof.
  intros Hin. cbv zeta.
  rewrite !(proj1 (validate7702_group_eq h txType _ to s) Hin).
  split; [| split; [| reflexivity]].
  - destruct (s !! to) as [acc |]; [| left; reflexivity].
    destruct (AccountType_eqb _ _); [right; reflexivity |].
    destruct (acc_EOA acc); [| right; reflexivity].
    destruct (bytes_Equal _ _); [left | right]; reflexivity.
  - destruct (s !! to) as [acc |].
    2:{ split; [left; reflexivity | reflexivity]. }
    pose proof (isCodelessEOA_decision h acc) as Hd.
    destruct (AccountType_eqb _ _).
    { split; [discriminate |].
      intros [E | (acc' & E & Hc)]; [discriminate |]. injection E as <-.
      apply Hd in Hc. discriminate. }
    destruct (acc_EOA acc) as [eoa |].
    2:{ split; [discriminate |].
        intros [E | (acc' & E & Hc)]; [discriminate |]. injection E as <-.
        apply Hd in Hc. discriminate. }
    destruct (bytes_Equal (GetCodeHash eoa) h).
    + split; [| reflexivity]. intros _. right. exists acc.
      split; [reflexivity | apply Hd; reflexivity].
    + split; [discriminate |].
      intros [E | (acc' & E & Hc)]; [discriminate |]. injection E as <-.
      apply Hd in Hc. discriminate.
Qed.

Lemma validate7702_value_transfer_witness :
  In TxTypeValueTransferMemo valueTransferTypes /\
  fst (validate7702 keccak256Empty TxTypeValueTransferMemo 1 2 {[ 2 := plainEOA ]})
  = None.
Proof.
  assert (Hin : In TxTypeValueTransferMemo valueTransferTypes)
    by (apply tagIn_In; reflexivity).
  split; [exact Hin |].
  destruct (validate7702_value_transfer keccak256Empty TxTypeValueTransferMemo
              1 1 2 {[ 2 := plainEOA ]} Hin) as (_ & H & _).
  apply H. right. exists plainEOA. split; [reflexivity |].
  split; [discriminate |]. eexists. split; reflexivity.
Defined.

(** X15: for the three account-update types the same test is applied to
    the sender: the validator passes if and only if the sender does not
    exist or is an externally-owned account without code, and fails with
    the sender-must-be-codeless error otherwise.  The recipient plays no
    role. *)
Theorem validate7702_account_update (h : list byte) (txType from to to' : Z)
    (s : gmap Z Account) :
  In txType accountUpdateTypes ->
  let res := fst (validate7702 h txType from to s) in
  (res = None \/ res = Some ErrFromMustBeEOAWithoutCode) /\
  (res = None <->
     s !! from = None \/ exists acc, s !! from = Some acc /\ isCodelessEOA h acc) /\
  res = fst (validate7702 h txType from to' s).
Proof.
  intros Hin. cbv zeta.
  rewrite !(proj2 (validate7702_group_eq h txType from _ s) Hin).
  split; [| split; [| reflexivity]].
  - destruct (s !! from) as [acc |]; [| left; reflexivity].
    destruct (AccountType_eqb _ _); [right; reflexivity |].
    destruct (acc_EOA acc); [| right; reflexivity].
    destruct (bytes_Equal _ _); [left | right]; reflexivity.
  - destruct (s !! from) as [acc |].
    2:{ split; [left; reflexivity | reflexivity]. }
    pose proof (isCodelessEOA_decision h acc) as Hd.
    destruct (AccountType_eqb _ _).
    { split; [discriminate |].
      intros [E | (acc' & E & Hc)]; [discriminate |]. injection E as <-.
      apply Hd in Hc. discriminate. }
    destruct (acc_EOA acc) as [eoa |].
    2:{ split; [discriminate |].
        intros [E | (acc' & E & Hc)]; [discriminate |]. injection E as <-.
        apply Hd in Hc. discriminate. }
    destruct (bytes_Equal (GetCodeHash eoa) h).
    + split; [| reflexivity]. intros _. right. exists acc.
      split; [reflexivity | apply Hd; reflexivity].
    + split; [discriminate |].
      intros [E | (acc' & E & Hc)]; [discriminate |]. injection E as <-.
      apply Hd in Hc. discriminate.
Qed.

Lemma validate7702_account_update_witness :
  In TxTypeAccountUpdate accountUpdateTypes /\
  fst (validate7702 keccak256Empty TxTypeAccountUpdate 1 2 {[ 1 := legacyAccount ]})
  = Some ErrFromMustBeEOAWithoutCode.
Proof.
  assert (Hin : In TxTypeAccountUpdate accountUpdateTypes)
    by (apply tagIn_In; reflexivity).
  split; [exact Hin |].
  destruct (validate7702_account_update keccak256Empty TxTypeAccountUpdate
              1 2 2 {[ 1 := legacyAccount ]} Hin) as ([H | H] & Hiff & _).
  - exfalso. apply Hiff in H. destruct H as [H | (acc & E & _ & eoa & He & _)].
    + discriminate.
    + injection E as <-. discriminate.
  - exact H.
Defined.

(** X16: every transaction type outside the twelve guarded ones (legacy,
    contract deployment, cancel, chain-data anchoring, the Ethereum-typed
    types and every undeclared tag) passes the validator in every state and
    for every sender and recipient. *)
Theorem validate7702_unguarded_types_pass (h : list byte) (txType from to : Z)
    (s : gmap Z Account) :
  tagIn txType guardedTxTypes = false ->
  validate7702 h txType from to s = (None, s).
Proof.
  intros Hout.
  assert (Hne : forall c, In c guardedTxTypes -> (txType =? c) = false).
  { intros c Hc. apply Z.eqb_neq. intros ->.
    apply tagIn_In in Hc. congruence. }
  unfold validate7702.
  repeat match goal with
  | |- context [ txType =? ?c ] =>
      rewrite (Hne c) by (apply tagIn_In; reflexivity)
  end.
  reflexivity.
Qed.

Lemma validate7702_unguarded_types_pass_witness :
  tagIn TxTypeSmartContractDeploy guardedTxTypes = false /\
  validate7702 keccak256Empty TxTypeSmartContractDeploy 1 2 {[ 2 := legacyAccount ]}
  = (None, {[ 2 := legacyAccount ]}).
Proof.
  split; [reflexivity |].
  apply (validate7702_unguarded_types_pass keccak256Empty TxTypeSmartContractDeploy).
  reflexivity.
Defined.

(** X17: in every state a recipient is acceptable to exactly one of the two
    recipient checks: a value-transfer type passes for it if and only if a
    contract-execution type fails for it. *)
Theorem validate7702_transfer_xor_execution (h : list byte)
    (tTransfer tExecution from from' to : Z) (s : gmap Z Account) :
  In tTransfer valueTransferTypes -> In tExecution contractExecutionTypes ->
  (fst (validate7702 h tTransfer from to s) = None
   <-> fst (validate7702 h tExecution from' to s) = Some ErrToMustBeEOAWithCodeOrSCA).
Proof.
  intros Ht He.
  rewrite (proj1 (validate7702_group_eq h tTransfer from to s) Ht).
  rewrite (validate7702_contract_execution_eq h tExecution from' to s He).
  destruct (s !! to) as [acc |]; [| split; reflexivity].
  destruct (AccountType_eqb _ _); [split; discriminate |].
  destruct (acc_EOA acc) as [eoa |]; [| split; discriminate].
  destruct (bytes_Equal (GetCodeHash eoa) h); split; (reflexivity || discriminate).
Qed.

Lemma validate7702_transfer_xor_execution_witness :
  In TxTypeValueTransfer valueTransferTypes /\
  In TxTypeSmartContractExecution contractExecutionTypes /\
  fst (validate7702 keccak256Empty TxTypeValueTransfer 1 2 ∅) = None /\
  fst (validate7702 keccak256Empty TxTypeSmartContractExecution 1 2 ∅)
  = Some ErrToMustBeEOAWithCodeOrSCA.
Proof.
  assert (Ht : In TxTypeValueTransfer valueTransferTypes)
    by (apply tagIn_In; reflexivity).
  assert (He : In TxTypeSmartContractExecution contractExecutionTypes)
    by (apply tagIn_In; reflexivity).
  split; [exact Ht | split; [exact He |]].
  assert (H : fst (validate7702 keccak256Empty TxTypeValueTransfer 1 2 ∅) = None)
    by reflexivity.
  split; [exact H |].
  apply (validate7702_transfer_xor_execution keccak256Empty TxTypeValueTransfer
           TxTypeSmartContractExecution 1 1 2 ∅ Ht He).
  exact H.
Defined.

(** ** Registry, names and the keyed gas lookup *)

(** X18: the map constructor dispatches on the same tags as the plain
    constructor: for a tag the plain constructor accepts it runs the map
    constructor of that variant, and for every other tag (the disabled
    account-creation type included) it fails with the undefined-type error
    whatever the map holds. *)
Theorem NewTxInternalDataWithMap_same_dispatch (Value : Type)
    (newWithMap : TxInternalData -> gmap Z Value -> result TxInternalData)
    (t : Z) (values : gmap Z Value) :
  NewTxInternalDataWithMap Value newWithMap t values
  = match NewTxInternalData t with
    | Ok d => newWithMap d values
    | Err e => Err errUndefinedTxType
    end.
Proof.
  unfold NewTxInternalDataWithMap, NewTxInternalData.
  repeat match goal with
  | |- context [ t =? ?c ] => destruct (t =? c); [reflexivity |]
  end.
  reflexivity.
Qed.

(** The gas lookup succeeds exactly on the priced tags. *)
Lemma GetTxGasForTxType_lookup (p : ProtocolParams) (t : Z) :
  match GetTxGasForTxType p t with
  | Ok gas => tagIn t pricedTxTypes = true /\ txTypeToGasMap p !! t = Some gas
  | Err e =>
      tagIn t pricedTxTypes = false /\
      e = fmt_Errorf ("cannot find txGas for txType " +:+ TxType_String t)
  end.
Proof.
  unfold GetTxGasForTxType.
  destruct (tagIn t pricedTxTypes) eqn:Hin.
  - apply tagIn_In in Hin as Hc. vm_compute in Hc.
    repeat (destruct Hc as [Hc | Hc];
            [ subst t; vm_compute; split; reflexivity |]).
    contradiction.
  - rewrite (txTypeToGasMap_absent p t Hin). split; reflexivity.
Qed.

(** X19: every tag the constructor accepts has an entry in the gas table,
    so the gas lookup cannot fail on the type of a constructed variant; the
    only priced tag without a constructor is [TxTypeAccountCreation]. *)
Theorem constructible_types_have_gas (p : ProtocolParams) (t : Z) :
  match NewTxInternalData t with
  | Ok d => exists gas, GetTxGasForTxType p (TxInternalData_Type d) = Ok gas
  | Err _ =>
      forall gas, GetTxGasForTxType p t = Ok gas -> t = TxTypeAccountCreation
  end.
Proof.
  pose proof (NewTxInternalData_accepts t) as Hn.
  pose proof (GetTxGasForTxType_lookup p t) as Hg.
  destruct (NewTxInternalData t) as [d | e].
  - destruct Hn as [Hin ->].
    destruct (GetTxGasForTxType p t) as [gas | e]; [exists gas; reflexivity |].
    exfalso. destruct Hg as [Hout _].
    apply tagIn_In in Hin. vm_compute in Hin.
    repeat (destruct Hin as [Hin | Hin]; [ subst t; discriminate |]).
    exact Hin.
  - destruct Hn as [Hout _]. intros gas E. rewrite E in Hg. destruct Hg as [Hin _].
    apply tagIn_In in Hin. vm_compute in Hin.
    repeat (destruct Hin as [Hin | Hin];
            [ subst t; first [ reflexivity | discriminate ] |]).
    contradiction.
Qed.

Lemma TxType_String_named (t : Z) :
  tagIn t namedTxTypes = true /\ TxType_String t <> "UndefinedTxType"%string
  \/ tagIn t namedTxTypes = false /\ TxType_String t = "UndefinedTxType"%string.
Proof.
  unfold TxType_String.
  repeat match goal with
  | |- context [ t =? ?c ] =>
      case_tag t c; [ left; split; [reflexivity | discriminate] | ]
  end.
  right. split; [| reflexivity].
  apply not_true_is_false. intros H.
  apply tagIn_In in H as Hin. vm_compute in Hin.
  repeat (destruct Hin as [Hin | Hin]; [ subst t; contradiction |]).
  exact Hin.
Qed.

Lemma TxType_String_distinct_check :
  forallb (fun t1 =>
    forallb (fun t2 =>
      implb (String.eqb (TxType_String t1) (TxType_String t2)) (t1 =? t2))
      namedTxTypes) namedTxTypes = true.
Proof. vm_compute. reflexivity. Qed.

(** X20: [TxType.String] gives each of the 27 tags it names a name of its
    own, different from the name of every other tag, and gives
    "UndefinedTxType" to every other tag, the two end markers
    [TxTypeKaiaLast] and [TxTypeEthereumLast] included. *)
Theorem TxType_String_injective (t1 t2 : Z) :
  (TxType_String t1 = "UndefinedTxType"%string <-> tagIn t1 namedTxTypes = false) /\
  (tagIn t1 namedTxTypes = true -> TxType_String t1 = TxType_String t2 -> t1 = t2) /\
  length namedTxTypes = 27%nat /\
  TxType_String TxTypeKaiaLast = "UndefinedTxType"%string /\
  TxType_String TxTypeEthereumLast = "UndefinedTxType"%string.
Proof.
  split; [| split; [| repeat split; reflexivity]].
  - destruct (TxType_String_named t1) as [[Hin Hs] | [Hin Hs]]; rewrite Hin.
    + split; [intros E; contradiction | discriminate].
    + split; [reflexivity | intros _; exact Hs].
  - intros H1 E.
    destruct (TxType_String_named t2) as [[H2 _] | [_ Hs2]].
    + pose proof TxType_String_distinct_check as Hc.
      rewrite forallb_forall in Hc.
      specialize (Hc t1 (proj1 (tagIn_In _ _) H1)).
      rewrite forallb_forall in Hc.
      specialize (Hc t2 (proj1 (tagIn_In _ _) H2)).
      rewrite E, String.eqb_refl in Hc. simpl in Hc. apply Z.eqb_eq. exact Hc.
    + destruct (TxType_String_named t1) as [[_ Hs1] | [Hn _]]; congruence.
Qed.

Lemma TxType_String_injective_witness :
  tagIn TxTypeBatch namedTxTypes = true /\
  (TxType_String TxTypeBatch = TxType_String 64 -> TxTypeBatch = 64).
Proof.
  split; [reflexivity |].
  apply (proj1 (proj2 (TxType_String_injective TxTypeBatch 64))). reflexivity.
Defined.

Lemma TxValueKeyType_String_named (t : Z) :
  tagIn t declaredTxValueKeys = true
    /\ TxValueKeyType_String t <> "UndefinedTxValueKeyType"%string
  \/ tagIn t declaredTxValueKeys = false
    /\ TxValueKeyType_String t = "UndefinedTxValueKeyType"%string.
Proof.
  unfold TxValueKeyType_String.
  repeat match goal with
  | |- context [ t =? ?c ] =>
      case_tag t c; [ left; split; [reflexivity | discriminate] | ]
  end.
  right. split; [| reflexivity].
  apply not_true_is_false. intros H.
  apply tagIn_In in H as Hin. vm_compute in Hin.
  repeat (destruct Hin as [Hin | Hin]; [ subst t; contradiction |]).
  exact Hin.
Qed.

Lemma TxValueKeyType_String_distinct_check :
  forallb (fun t1 =>
    forallb (fun t2 =>
      implb (String.eqb (TxValueKeyType_String t1) (TxValueKeyType_String t2))
            (t1 =? t2))
      declaredTxValueKeys) declaredTxValueKeys = true.
Proof. vm_compute. reflexivity. Qed.

(** X21: [TxValueKeyType.String] names every one of the 18 declared keys
    (the keys are exactly the numbers 0 to 17), no two keys share a name,
    and every other number is named "UndefinedTxValueKeyType". *)
Theorem TxValueKeyType_String_injective (t1 t2 : Z) :
  (tagIn t1 declaredTxValueKeys = true <-> 0 <= t1 <= 17) /\
  (TxValueKeyType_String t1 = "UndefinedTxValueKeyType"%string
     <-> ~ 0 <= t1 <= 17) /\
  (0 <= t1 <= 17 -> TxValueKeyType_String t1 = TxValueKeyType_String t2 -> t1 = t2).
Proof.
  assert (Hrange : forall t, tagIn t declaredTxValueKeys = true <-> 0 <= t <= 17).
  { intros t. rewrite tagIn_In. unfold declaredTxValueKeys. simpl.
    vm_compute (TxValueKeyNonce). split.
    - intros H. repeat (destruct H as [H | H]; [vm_compute in H; lia |]).
      contradiction.
    - intros H. assert (Hc : t = 0 \/ t = 1 \/ t = 2 \/ t = 3 \/ t = 4 \/ t = 5
        \/ t = 6 \/ t = 7 \/ t = 8 \/ t = 9 \/ t = 10 \/ t = 11 \/ t = 12
        \/ t = 13 \/ t = 14 \/ t = 15 \/ t = 16 \/ t = 17) by lia.
      repeat (destruct Hc as [-> | Hc]; [ vm_compute; tauto |]).
      subst t. vm_compute. tauto. }
  split; [apply Hrange | split].
  - rewrite <- Hrange.
    destruct (TxValueKeyType_String_named t1) as [[Hin Hs] | [Hin Hs]]; rewrite Hin.
    + split; [intros E; contradiction | intros H; exfalso; apply H; reflexivity].
    + split; [intros _; discriminate | intros _; exact Hs].
  - intros H1 E. apply Hrange in H1.
    destruct (TxValueKeyType_String_named t2) as [[H2 _] | [_ Hs2]].
    + pose proof TxValueKeyType_String_distinct_check as Hc.
      rewrite forallb_forall in Hc.
      specialize (Hc t1 (proj1 (tagIn_In _ _) H1)).
      rewrite forallb_forall in Hc.
      specialize (Hc t2 (proj1 (tagIn_In _ _) H2)).
      rewrite E, String.eqb_refl in Hc. simpl in Hc. apply Z.eqb_eq. exact Hc.
    + destruct (TxValueKeyType_String_named t1) as [[_ Hs1] | [Hn _]]; congruence.
Qed.

Lemma TxValueKeyType_String_injective_witness :
  0 <= 13 <= 17 /\
  (TxValueKeyType_String 13 = TxValueKeyType_String TxValueKeyAccessList
   -> 13 = TxValueKeyAccessList).
Proof.
  assert (H : 0 <= 13 <= 17) by lia.
  split; [exact H |].
  exact (proj2 (proj2 (TxValueKeyType_String_injective 13 TxValueKeyAccessList)) H).
Defined.

(** X22: the keyed gas lookup fails exactly when the table has no entry for
    the type or the key's creation-gas computation fails; a missing table
    entry is reported first and then the key is not consulted.  On success
    the result is table gas plus key gas plus, for a human-readable
    address, [TxGasHumanReadable], added without overflow check (modulo
    [2^64]); a nil key adds nothing. *)
Theorem GetTxGasForTxTypeWithAccountKey_spec (p : ProtocolParams) (hrGas : Z)
    (t : Z) (key : option AccountKey) (blockNumber : Z) (humanReadable : bool) :
  let keyGas := match key with
                | Some k => AccountCreationGas k blockNumber
                | None => Ok 0
                end in
  match GetTxGasForTxTypeWithAccountKey p hrGas t key blockNumber humanReadable with
  | Ok total =>
      exists gas gasKey,
        GetTxGasForTxType p t = Ok gas /\ keyGas = Ok gasKey /\
        total = u64 (gas + gasKey + if humanReadable then hrGas else 0)
  | Err e =>
      GetTxGasForTxType p t = Err e
      \/ (exists gas, GetTxGasForTxType p t = Ok gas) /\ keyGas = Err e
  end.
Proof.
  cbv zeta. unfold GetTxGasForTxTypeWithAccountKey.
  destruct (GetTxGasForTxType p t) as [gas | e]; [| left; reflexivity].
  destruct (match key with
            | Some k => AccountCreationGas k blockNumber
            | None => Ok 0
            end) as [gasKey | e].
  - exists gas, gasKey. split; [reflexivity | split; [reflexivity |]].
    destruct humanReadable.
    + unfold add64 at 2. rewrite add64_u64_l. reflexivity.
    + rewrite Z.add_0_r. reflexivity.
  - right. split; [exists gas; reflexivity | reflexivity].
Qed.

(** X23: [equalRecipient] is equality of optional addresses: two nil
    recipients are equal, a nil and a present recipient are not, and two
    present recipients are equal exactly when their bytes are. *)
Theorem equalRecipient_spec (a b : option (list byte)) :
  (equalRecipient a b = true <-> a = b) /\
  equalRecipient a b = equalRecipient b a.
Proof.
  split.
  - destruct a as [a' |], b as [b' |]; simpl.
    + rewrite bytes_Equal_spec. split; [intros ->; reflexivity | congruence].
    + split; discriminate.
    + split; discriminate.
    + split; reflexivity.
  - destruct a as [a' |], b as [b' |]; simpl; try reflexivity.
    destruct (bytes_Equal a' b') eqn:E1, (bytes_Equal b' a') eqn:E2; try reflexivity.
    + apply bytes_Equal_spec in E1. subst.
      assert (bytes_Equal b' b' = true) by (apply bytes_Equal_spec; reflexivity).
      congruence.
    + apply bytes_Equal_spec in E2. subst.
      assert (bytes_Equal a' a' = true) by (apply bytes_Equal_spec; reflexivity).
      congruence.
Qed.

